(** * Airbnb room reviews scraper: the HTML-to-record extraction layer

    A shallow embedding of [src/extractors/review_parser.py],
    [src/extractors/reviewer_parser.py] and [src/extractors/host_parser.py],
    of the XML tree of [src/utils/data_formatter.py] and of the settings,
    the input, the output choice and the single-room step of
    [src/main.py], followed by their properties.

    Conventions of the embedding:
    - a Python [str] is a list of Unicode code points ([N]); [len] is
      [length]; string constants of the source are written [L "..."];
    - [str.lower], [re.IGNORECASE] and [\d] are modelled on the ASCII range
      (the Unicode-only case mappings and the non-ASCII decimal digits are
      outside the model); [\s], [str.strip] and [str.isspace] use Python's
      full whitespace table;
    - a parsed document is a tree of elements and text nodes, as
      BeautifulSoup hands it to the parsers; the lxml parse of the raw HTML
      is outside the model;
    - a Python [float] is an IEEE-754 binary64 value ([spec_float] with
      [prec = 53], [emax = 1024]); [float(s)] rounds the decimal numeral to
      nearest-even;
    - the language detector and the date parser are capabilities of the
      environment (class [Capabilities]); either may return or raise;
    - in [main.py] the file system, the HTTP session and the HTML parser
      are parameters: a function is given what they return or raise. *)

From Stdlib Require Import Ascii String.
From Stdlib Require Import List Bool Arith NArith ZArith Lia.
From Stdlib Require Import SpecFloat.
Import ListNotations.

Open Scope string_scope.
Open Scope list_scope.

Set Implicit Arguments.
Set Warnings "-register-all".

(* ================================================================== *)
(** * Python strings *)
(* ================================================================== *)

Module PyStr.

(** A [str] is a sequence of code points. *)
Definition str := list N.

(** [L "abc"] is the [str] of an ASCII literal of the source. *)
Definition L (s : string) : str :=
  List.map N_of_ascii (list_ascii_of_string s).

Definition eqb (a b : str) : bool :=
  if list_eq_dec N.eq_dec a b then true else false.

(** [bool(s)] : a string is truthy when it is not empty. *)
Definition truthy (s : str) : bool :=
  match s with [] => false | _ :: _ => true end.

(** [c.isspace()], which is also what [\s] matches in a [str] pattern. *)
Definition isspace (c : N) : bool :=
  ((9 <=? c) && (c <=? 13) || (28 <=? c) && (c <=? 32) ||
   (c =? 133) || (c =? 160) || (c =? 5760) ||
   (8192 <=? c) && (c <=? 8202) || (c =? 8232) || (c =? 8233) ||
   (c =? 8239) || (c =? 8287) || (c =? 12288))%N.

Definition isdigit (c : N) : bool := ((48 <=? c) && (c <=? 57))%N.

Definition lower_cp (c : N) : N :=
  if ((65 <=? c) && (c <=? 90))%N then (c + 32)%N else c.

(** [s.lower()] *)
Definition lower (s : str) : str := List.map lower_cp s.

Fixpoint lstrip (s : str) : str :=
  match s with
  | c :: s' => if isspace c then lstrip s' else s
  | [] => []
  end.

Definition rstrip (s : str) : str := rev (lstrip (rev s)).

(** [s.strip()] *)
Definition strip (s : str) : str := rstrip (lstrip s).

(** [s.startswith(p)] *)
Fixpoint startswith (p s : str) : bool :=
  match p, s with
  | [], _ => true
  | _ :: _, [] => false
  | a :: p', b :: s' => (a =? b)%N && startswith p' s'
  end.

(** [needle in hay] *)
Fixpoint contains (needle hay : str) : bool :=
  startswith needle hay ||
  match hay with
  | [] => false
  | _ :: hay' => contains needle hay'
  end.

(** [hay.find(needle)], with [None] for Python's [-1]. *)
Fixpoint find (needle hay : str) : option nat :=
  if startswith needle hay then Some 0
  else match hay with
       | [] => None
       | _ :: hay' => option_map S (find needle hay')
       end.

(** [sep.join(parts)] *)
Fixpoint join (sep : str) (parts : list str) : str :=
  match parts with
  | [] => []
  | [p] => p
  | p :: ps => p ++ sep ++ join sep ps
  end.

(** [s[:n]] for [n >= 0] *)
Definition slice_to (n : nat) (s : str) : str := firstn n s.

(** Index of the last occurrence of the code point [c] in [s]. *)
Fixpoint rindex (c : N) (s : str) : option nat :=
  match s with
  | [] => None
  | x :: s' =>
      match rindex c s' with
      | Some i => Some (S i)
      | None => if (x =? c)%N then Some 0 else None
      end
  end.

(** [s.rsplit(sep, 1)[0]] for the one-character separator [sep]: what
    precedes the last [sep], or all of [s] when [sep] does not occur. *)
Definition rsplit1_head (sep : N) (s : str) : str :=
  match rindex sep s with
  | Some i => firstn i s
  | None => s
  end.

(** [s.split()] : the maximal runs of non-whitespace. *)
Fixpoint split_ws_aux (cur : str) (s : str) : list str :=
  match s with
  | [] => match cur with [] => [] | _ => [rev cur] end
  | c :: s' =>
      if isspace c
      then match cur with
           | [] => split_ws_aux [] s'
           | _ => rev cur :: split_ws_aux [] s'
           end
      else split_ws_aux (c :: cur) s'
  end.

Definition split_ws (s : str) : list str := split_ws_aux [] s.

(** The horizontal ellipsis U+2026, one code point. *)
Definition ellipsis : str := [8230%N].

Definition space : N := 32%N.

(** ["\n"] *)
Definition newline : str := [10%N].

End PyStr.

Import PyStr.

(* ================================================================== *)
(** * Regular expressions ([re]) *)
(* ================================================================== *)

(** The backtracking matcher of Python's [re], for the constructs the
    parsers use: literals, [\d], [\s], [.], a character set, [^],
    concatenation, the greedy [?], [*], [+], the lazy [*?] and capturing
    groups; with the flags [re.IGNORECASE] and [re.DOTALL]. *)
Module Re.

Inductive regex : Type :=
| Eps
| Chr (c : N)
| Digit
| Space
| Dot
| OneOf (cs : list N)
| Bol
| Seq (r1 r2 : regex)
| Opt (r : regex)
| Star (r : regex)
| StarLazy (r : regex)
| Group (n : nat) (r : regex).

(** [r+] *)
Definition Plus (r : regex) : regex := Seq r (Star r).

(** A literal run of characters. *)
Fixpoint Lit_of (cs : list N) : regex :=
  match cs with
  | [] => Eps
  | [c] => Chr c
  | c :: cs' => Seq (Chr c) (Lit_of cs')
  end.

Definition Lit (s : string) : regex := Lit_of (L s).

Record flags := { ignorecase : bool; dotall : bool }.

Definition no_flags : flags := {| ignorecase := false; dotall := false |}.
Definition IGNORECASE : flags := {| ignorecase := true; dotall := false |}.
Definition IGNORECASE_DOTALL : flags := {| ignorecase := true; dotall := true |}.

(** The captured text of each numbered group. *)
Definition captures := list (nat * str).

Fixpoint lookup (n : nat) (caps : captures) : option str :=
  match caps with
  | [] => None
  | (i, s) :: caps' => if Nat.eqb i n then Some s else lookup n caps'
  end.

Definition chr_eq (fl : flags) (c x : N) : bool :=
  if ignorecase fl then (lower_cp c =? lower_cp x)%N else (c =? x)%N.

(** One-character tests. *)
Definition step1 (p : N -> bool) (s : str) {A} (k : str -> option A) : option A :=
  match s with
  | x :: s' => if p x then k s' else None
  | [] => None
  end.

(** The greedy loop of [r*]: one more round of [m] (which must consume
    something) is tried before the continuation; [fuel] bounds the
    rounds by the text that is left. *)
Fixpoint star_loop {A}
         (m : str -> captures -> (str -> captures -> option A) -> option A)
         (k : str -> captures -> option A)
         (fuel : nat) (s : str) (caps : captures) {struct fuel} : option A :=
  match fuel with
  | O => k s caps
  | S fuel' =>
      match m s caps
              (fun s' caps' =>
                 if Nat.ltb (length s') (length s)
                 then star_loop m k fuel' s' caps' else None) with
      | Some res => Some res
      | None => k s caps
      end
  end.

(** The lazy loop of [r*?]: the continuation is tried before one more
    round of [m]. *)
Fixpoint lazy_loop {A}
         (m : str -> captures -> (str -> captures -> option A) -> option A)
         (k : str -> captures -> option A)
         (fuel : nat) (s : str) (caps : captures) {struct fuel} : option A :=
  match k s caps with
  | Some res => Some res
  | None =>
      match fuel with
      | O => None
      | S fuel' =>
          m s caps
            (fun s' caps' =>
               if Nat.ltb (length s') (length s)
               then lazy_loop m k fuel' s' caps' else None)
      end
  end.

(** [mt fl n0 r s caps k] matches [r] at the front of [s] (a suffix of a
    subject of length [n0]) and hands what is left to the continuation
    [k]; alternatives are tried in Python's order, and the first one
    whose continuation succeeds wins. *)
Fixpoint mt {A} (fl : flags) (n0 : nat) (r : regex) (s : str) (caps : captures)
         (k : str -> captures -> option A) {struct r} : option A :=
  match r with
  | Eps => k s caps
  | Chr c => step1 (chr_eq fl c) s (fun s' => k s' caps)
  | Digit => step1 isdigit s (fun s' => k s' caps)
  | Space => step1 isspace s (fun s' => k s' caps)
  | Dot => step1 (fun x => dotall fl || negb (x =? 10)%N) s (fun s' => k s' caps)
  | OneOf cs => step1 (fun x => existsb (fun c => chr_eq fl c x) cs) s
                      (fun s' => k s' caps)
  | Bol => if Nat.eqb (length s) n0 then k s caps else None
  | Seq r1 r2 => mt fl n0 r1 s caps (fun s' caps' => mt fl n0 r2 s' caps' k)
  | Opt r' =>
      match mt fl n0 r' s caps k with
      | Some res => Some res
      | None => k s caps
      end
  | Star r' =>
      star_loop (fun s0 caps0 k0 => mt fl n0 r' s0 caps0 k0) k (S (length s)) s caps
  | StarLazy r' =>
      lazy_loop (fun s0 caps0 k0 => mt fl n0 r' s0 caps0 k0) k (S (length s)) s caps
  | Group n r' =>
      mt fl n0 r' s caps
         (fun s' caps' =>
            k s' ((n, firstn (length s - length s') s) :: caps'))
  end.

(** A match object: where the match starts, what it matched, and the
    groups. *)
Record match_obj := { m_start : nat; m_text : str; m_groups : captures }.

(** [m.group(n)] for a group that took part in the match, else [None]. *)
Definition group (n : nat) (m : match_obj) : option str := lookup n (m_groups m).

Definition match_at (fl : flags) (n0 : nat) (r : regex) (s : str) (pos : nat)
  : option match_obj :=
  mt fl n0 r s []
     (fun s' caps =>
        Some {| m_start := pos;
                m_text := firstn (length s - length s') s;
                m_groups := caps |}).

Fixpoint search_from (fl : flags) (n0 : nat) (r : regex) (s : str) (pos : nat)
  : option match_obj :=
  match match_at fl n0 r s pos with
  | Some m => Some m
  | None =>
      match s with
      | [] => None
      | _ :: s' => search_from fl n0 r s' (S pos)
      end
  end.

(** [re.search(r, s, flags)] : the leftmost match. *)
Definition search (fl : flags) (r : regex) (s : str) : option match_obj :=
  search_from fl (length s) r s 0.

(** [re.sub] for a pattern that matches no empty string:
    every non-overlapping match, leftmost first, is removed. *)
Fixpoint sub_empty_from (fuel : nat) (fl : flags) (n0 : nat) (r : regex) (s : str)
  : str :=
  match fuel with
  | O => s
  | S fuel' =>
      match match_at fl n0 r s 0 with
      | Some m =>
          match m_text m with
          | _ :: _ => sub_empty_from fuel' fl n0 r (skipn (length (m_text m)) s)
          | [] => match s with
                  | [] => []
                  | c :: s' => c :: sub_empty_from fuel' fl n0 r s'
                  end
          end
      | None =>
          match s with
          | [] => []
          | c :: s' => c :: sub_empty_from fuel' fl n0 r s'
          end
      end
  end.

Definition sub_empty (fl : flags) (r : regex) (s : str) : str :=
  sub_empty_from (S (length s)) fl (length s) r s.

End Re.

(* ================================================================== *)
(** * Numbers from text: [float(s)] and [int(s)] *)
(* ================================================================== *)

Module PyNum.

(** IEEE-754 binary64. *)
Definition prec : Z := 53.
Definition emax : Z := 1024.

Definition pyfloat := spec_float.

Definition fltb (x y : pyfloat) : bool := SFltb x y.

Definition digit_val (c : N) : Z := Z.of_N (c - 48).

(** Value of a run of decimal digits. *)
Definition digits_val (ds : str) : Z :=
  fold_left (fun acc c => (10 * acc + digit_val c)%Z) ds 0%Z.

(** The binary64 nearest (ties to even) to [(-1)^neg * m * 10^e], for
    [m >= 0]. *)
Definition of_decimal (neg : bool) (m e : Z) : pyfloat :=
  match m with
  | Z0 => S754_zero neg
  | Zneg _ => S754_nan
  | Zpos pm =>
      match e with
      | Zneg pe =>
          let '(q, e', l) :=
            SFdiv_core_binary prec emax (Zpos pm) 0 (Z.pow_pos 10 pe) 0 in
          binary_round_aux prec emax neg q e' l
      | _ =>
          match (m * 10 ^ e)%Z with
          | Zpos p => binary_round prec emax neg p 0
          | _ => S754_nan
          end
      end
  end.

(** Underscores of a numeric literal may stand only between two digits;
    [strip_underscores] removes them, or fails. *)
Fixpoint strip_underscores (prev : option N) (s : str) : option str :=
  match s with
  | [] =>
      match prev with
      | Some 95%N => None
      | _ => Some []
      end
  | c :: s' =>
      if (c =? 95)%N then
        match prev with
        | Some p => if isdigit p then strip_underscores (Some c) s' else None
        | None => None
        end
      else
        match prev with
        | Some 95%N =>
            if isdigit c
            then option_map (cons c) (strip_underscores (Some c) s')
            else None
        | _ => option_map (cons c) (strip_underscores (Some c) s')
        end
  end.

(** The longest prefix of digits, and the rest. *)
Fixpoint span_digits (s : str) : str * str :=
  match s with
  | c :: s' =>
      if isdigit c
      then let '(ds, rest) := span_digits s' in (c :: ds, rest)
      else ([], s)
  | [] => ([], [])
  end.

(** An optional sign: [true] for [-]. *)
Definition take_sign (s : str) : bool * str :=
  match s with
  | 43%N :: s' => (false, s')
  | 45%N :: s' => (true, s')
  | _ => (false, s)
  end.

(** The exponent part: absent, [e[+-]digits], or malformed ([None]). *)
Definition parse_exponent (s : str) : option Z :=
  match s with
  | [] => Some 0%Z
  | c :: s' =>
      if ((c =? 101) || (c =? 69))%N then
        let '(neg, s'') := take_sign s' in
        match span_digits s'' with
        | ((_ :: _) as ds, []) =>
            Some (if neg then (- digits_val ds)%Z else digits_val ds)
        | _ => None
        end
      else None
  end.

(** [digits [. [digits]] [exponent]] or [. digits [exponent]], as the
    decimal [m * 10^e]. *)
Definition parse_decimal (s : str) : option (Z * Z) :=
  let '(ip, rest) := span_digits s in
  let '(fp, rest') :=
    match rest with
    | 46%N :: r => span_digits r
    | _ => ([], rest)
    end in
  match ip, fp with
  | [], [] => None
  | _, _ =>
      match parse_exponent rest' with
      | Some ex => Some (digits_val (ip ++ fp), (ex - Z.of_nat (length fp))%Z)
      | None => None
      end
  end.

(** [float(s)] for a [str]; [None] stands for [ValueError]. *)
Definition float (s : str) : option pyfloat :=
  match strip_underscores None (strip s) with
  | None => None
  | Some t =>
      let '(neg, body) := take_sign t in
      let lb := lower body in
      if PyStr.eqb lb (L "inf") || PyStr.eqb lb (L "infinity")
      then Some (S754_infinity neg)
      else if PyStr.eqb lb (L "nan") then Some S754_nan
      else match parse_decimal body with
           | Some (m, e) => Some (of_decimal neg m e)
           | None => None
           end
  end.

(** [int(s)] for a [str], base 10; [None] stands for [ValueError]. *)
Definition int (s : str) : option Z :=
  match strip_underscores None (strip s) with
  | None => None
  | Some t =>
      let '(neg, body) := take_sign t in
      match span_digits body with
      | ((_ :: _) as ds, []) =>
          Some (if neg then (- digits_val ds)%Z else digits_val ds)
      | _ => None
      end
  end.

End PyNum.

(* ================================================================== *)
(** * The parsed document (BeautifulSoup) *)
(* ================================================================== *)

Module Soup.

(** A node of the tree: a text node, or an element with its name, its
    attributes as written in the markup (each name once) and its
    children in document order.  Names are lower case, as the HTML
    parser delivers them.  Comments and the text of [script] and [style]
    are not text nodes: [get_text] leaves them out. *)
Inductive node : Type :=
| NavigableString (s : str)
| Tag (name : str) (raw_attrs : list (str * str)) (contents : list node).

Definition is_tag (n : node) : bool :=
  match n with Tag _ _ _ => true | NavigableString _ => false end.

Definition name (n : node) : str :=
  match n with Tag nm _ _ => nm | NavigableString _ => [] end.

Definition raw_attrs (n : node) : list (str * str) :=
  match n with Tag _ a _ => a | NavigableString _ => [] end.

Definition contents (n : node) : list node :=
  match n with Tag _ _ c => c | NavigableString _ => [] end.

(** BeautifulSoup's table of multi-valued attributes: their value is
    delivered as the list of its whitespace-separated parts, every other
    attribute as a [str]. *)
Definition multi_valued (tag attr : str) : bool :=
  let att a := PyStr.eqb attr (L a) in
  let on t := PyStr.eqb tag (L t) in
  att "class" || att "accesskey" || att "dropzone" ||
  (on "a" || on "link") && (att "rel" || att "rev") ||
  (on "td" || on "th") && att "headers" ||
  on "form" && att "accept-charset" ||
  on "object" && att "archive" ||
  on "area" && att "rel" ||
  on "icon" && att "sizes" ||
  on "iframe" && att "sandbox" ||
  on "output" && att "for".

Inductive attr_value : Type :=
| AStr (s : str)
| AList (l : list str).

Definition attr_view (tag : str) (kv : str * str) : str * attr_value :=
  (fst kv,
   if multi_valued tag (fst kv) then AList (split_ws (snd kv)) else AStr (snd kv)).

(** [tag.attrs.items()] *)
Definition attrs (n : node) : list (str * attr_value) :=
  List.map (attr_view (name n)) (raw_attrs n).

Fixpoint assoc {A} (k : str) (l : list (str * A)) : option A :=
  match l with
  | [] => None
  | (k', v) :: l' => if PyStr.eqb k' k then Some v else assoc k l'
  end.

(** [tag.get(attr)] *)
Definition get (n : node) (attr : string) : option attr_value :=
  assoc (L attr) (attrs n).

(** [tag.get(attr)] for an attribute that is a [str] when present. *)
Definition get_str (n : node) (attr : string) : option str :=
  match get n attr with
  | Some (AStr s) => Some s
  | _ => None
  end.

(** [tag.get("class", [])] *)
Definition get_class (n : node) : list str :=
  match get n "class" with
  | Some (AList l) => l
  | _ => []
  end.

(** [x or y] on optional strings: [x] when it is truthy, else [y]. *)
Definition or_else (x y : option str) : option str :=
  match x with
  | Some (_ :: _) => x
  | _ => y
  end.

(** [bool(x)] for an optional string. *)
Definition truthy_opt (x : option str) : bool :=
  match x with
  | Some (_ :: _) => true
  | _ => false
  end.

(** [tag.descendants] : every node below [n], in document order. *)
Fixpoint descendants (n : node) : list node :=
  match n with
  | NavigableString _ => []
  | Tag _ _ cs => flat_map (fun c => c :: descendants c) cs
  end.

Definition descendant_tags (n : node) : list node :=
  filter is_tag (descendants n).

(** The stripped, non-empty strings below [n]. *)
Definition stripped_strings (n : node) : list str :=
  flat_map (fun d => match d with
                     | NavigableString s =>
                         match strip s with
                         | [] => []
                         | t => [t]
                         end
                     | Tag _ _ _ => []
                     end) (descendants n).

(** [tag.get_text(sep, strip=True)] *)
Definition get_text (sep : str) (n : node) : str :=
  join sep (stripped_strings n).

(** *** [find] and [find_all] *)

(** What an attribute is asked to be: present ([True]), or a given
    string. *)
Inductive attr_want : Type :=
| Present
| Equals (v : str).

Definition value_matches (v : attr_value) (w : attr_want) : bool :=
  match w with
  | Present => true
  | Equals x =>
      match v with
      | AStr s => PyStr.eqb s x
      | AList l => existsb (fun i => PyStr.eqb i x) l || PyStr.eqb (join (L " ") l) x
      end
  end.

Definition has_attr (n : node) (aw : string * attr_want) : bool :=
  match get n (fst aw) with
  | Some v => value_matches v (snd aw)
  | None => false
  end.

(** [names = []] stands for no constraint on the tag name. *)
Definition tag_matches (names : list string) (wants : list (string * attr_want))
           (n : node) : bool :=
  is_tag n &&
  (match names with
   | [] => true
   | _ => existsb (fun nm => PyStr.eqb (name n) (L nm)) names
   end) &&
  forallb (has_attr n) wants.

(** [tag.find_all(names, attrs=wants)] *)
Definition find_all (names : list string) (wants : list (string * attr_want))
           (n : node) : list node :=
  filter (tag_matches names wants) (descendants n).

(** [tag.find(names, attrs=wants)] *)
Definition find (names : list string) (wants : list (string * attr_want))
           (n : node) : option node :=
  hd_error (find_all names wants n).

(** *** CSS selectors *)

(** A compound selector: an optional type selector, attribute
    selectors [[a]] and [[a="v"]], and class selectors. *)
Record selector := {
  sel_tag : option string;
  sel_attrs : list (string * option string);
  sel_classes : list string
}.

Definition attr_text (v : attr_value) : str :=
  match v with
  | AStr s => s
  | AList l => join (L " ") l
  end.

Definition classes_of (n : node) : list str :=
  match get n "class" with
  | Some (AList l) => l
  | Some (AStr s) => split_ws s
  | None => []
  end.

Definition css_attr_ok (n : node) (a : string * option string) : bool :=
  match get n (fst a), snd a with
  | Some _, None => true
  | Some v, Some x => PyStr.eqb (attr_text v) (L x)
  | None, _ => false
  end.

Definition css_matches (s : selector) (n : node) : bool :=
  is_tag n &&
  (match sel_tag s with
   | Some t => PyStr.eqb (name n) (L t)
   | None => true
   end) &&
  forallb (css_attr_ok n) (sel_attrs s) &&
  forallb (fun c => existsb (fun k => PyStr.eqb k (L c)) (classes_of n)) (sel_classes s).

(** [tag.select(selector)] : the matching descendants, in document
    order. *)
Definition select (s : selector) (n : node) : list node :=
  filter (css_matches s) (descendants n).

(** [tag.select_one(selector)] *)
Definition select_one (s : selector) (n : node) : option node :=
  hd_error (select s n).

End Soup.

Import Soup.

(** Loops that return from inside: the first element for which the body
    produces a value. *)
Fixpoint first_some {A B} (f : A -> option B) (l : list A) : option B :=
  match l with
  | [] => None
  | x :: l' =>
      match f x with
      | Some y => Some y
      | None => first_some f l'
      end
  end.

(** [sorted(l, key=len)] : a stable sort by length. *)
Fixpoint insert_by_len (x : str) (l : list str) : list str :=
  match l with
  | [] => [x]
  | y :: l' =>
      if Nat.leb (length x) (length y) then x :: l
      else y :: insert_by_len x l'
  end.

Fixpoint sorted_by_len (l : list str) : list str :=
  match l with
  | [] => []
  | x :: l' => insert_by_len x (sorted_by_len l')
  end.

(** The pattern [/users/show/(\d+)] of both person extractors. *)
Definition re_user_id : Re.regex :=
  Re.Seq (Re.Lit "/users/show/") (Re.Group 1 (Re.Plus Re.Digit)).

(* ================================================================== *)
(** * [reviewer_parser.py] *)
(* ================================================================== *)

Module ReviewerParser.

Record reviewer := {
  id : option str;
  firstName : option str;
  profilePath : option str;
  pictureUrl : option str;
  isSuperhost : bool;
  location : option str
}.

Definition _find_profile_link (container : node) : option node :=
  List.find
    (fun link =>
       match get_str link "href" with
       | Some href => contains (L "/users/show/") href
       | None => false
       end)
    (find_all ["a"] [("href", Present)] container).

Definition _extract_user_id_from_href (href : str) : option str :=
  match Re.search Re.no_flags re_user_id href with
  | Some m => Re.group 1 m
  | None => None
  end.

Definition _find_profile_picture (container : node) : option str :=
  match
    first_some
      (fun img =>
         let alt := lower (match get_str img "alt" with Some a => a | None => [] end) in
         if contains (L "profile") alt || contains (L "avatar") alt
         then match get_str img "src" with
              | Some ((_ :: _) as src) => Some src
              | _ => None
              end
         else None)
      (find_all ["img"] [] container)
  with
  | Some src => Some src
  | None =>
      (* Fallback: any small image likely to be avatar *)
      first_some
        (fun img =>
           let width := get_str img "width" in
           let height := get_str img "height" in
           if truthy_opt width && truthy_opt height then
             match width, height with
             | Some ws, Some hs =>
                 match PyNum.int ws, PyNum.int hs with
                 | Some w, Some h =>
                     if (Z.max w h <=? 80)%Z
                     then match get_str img "src" with
                          | Some ((_ :: _) as src) => Some src
                          | _ => None
                          end
                     else None
                 | _, _ => None
                 end
             | _, _ => None
             end
           else None)
        (find_all ["img"] [] container)
  end.

(** The loop of [_find_reviewer_location]: a tenure phrase returns at
    once ([inl]); otherwise the candidates are collected ([inr]). *)
Fixpoint location_loop (elems : list node) (text_candidates : list str)
  : str + list str :=
  match elems with
  | [] => inr text_candidates
  | elem :: elems' =>
      let text := get_text (L " ") elem in
      match text with
      | [] => location_loop elems' text_candidates
      | _ =>
          let lower := PyStr.lower text in
          if contains (L "years on airbnb") lower || contains (L "year on airbnb") lower
          then inl text
          else if contains (L "from ") lower && Nat.ltb (length text) 80
               then location_loop elems' (text_candidates ++ [text])
               else location_loop elems' text_candidates
      end
  end.

Definition _find_reviewer_location (container : node) : option str :=
  match location_loop (find_all ["span"; "div"] [] container) [] with
  | inl text => Some text
  | inr text_candidates =>
      match text_candidates with
      | [] => None
      | _ => hd_error (sorted_by_len text_candidates)
      end
  end.

Definition _detect_superhost_flag (container : node) : bool :=
  let text := lower (get_text (L " ") container) in
  if contains (L "superhost") text then true else false.

Definition parse_reviewer (container : node) : reviewer :=
  let profile_link := _find_profile_link container in
  let href := match profile_link with
              | Some link => get_str link "href"
              | None => None
              end in
  let picture := _find_profile_picture container in
  let loc := _find_reviewer_location container in
  {| id := match href with
           | Some h => _extract_user_id_from_href h
           | None => None
           end;
     firstName := match profile_link with
                  | Some link =>
                      match get_text [] link with
                      | [] => None
                      | t => Some t
                      end
                  | None => None
                  end;
     profilePath := href;
     pictureUrl := if truthy_opt picture then picture else None;
     isSuperhost := _detect_superhost_flag container;
     location := if truthy_opt loc then loc else None |}.

End ReviewerParser.

(* ================================================================== *)
(** * [host_parser.py] *)
(* ================================================================== *)

Module HostParser.

Record host := {
  id : option str;
  firstName : option str;
  profilePath : option str;
  pictureUrl : option str;
  isSuperhost : bool
}.

(** The two host-response sections, in the order the source lists
    them; a section that is not found is [None]. *)
Definition host_sections (container : node) : list (option node) :=
  [ find ["section"] [("data-testid", Equals (L "host-response"))] container;
    find ["div"] [("data-testid", Equals (L "review-detail-host-response"))] container ].

Definition is_profile_link (link : node) : bool :=
  match get_str link "href" with
  | Some href => contains (L "/users/show/") href
  | None => false
  end.

Definition _find_host_link (container : node) : option node :=
  match
    first_some
      (fun section =>
         match section with
         | None => None
         | Some sec => List.find is_profile_link (find_all ["a"] [("href", Present)] sec)
         end)
      (host_sections container)
  with
  | Some link => Some link
  | None =>
      (* Fallback: any link with /users/show/ and "Response from" nearby *)
      let text := get_text (L " ") container in
      let response_idx := PyStr.find (L "response from") (lower text) in
      List.find
        (fun link =>
           is_profile_link link &&
           match response_idx with Some _ => true | None => false end)
        (find_all ["a"] [("href", Present)] container)
  end.

Definition _extract_user_id_from_href (href : str) : option str :=
  match Re.search Re.no_flags re_user_id href with
  | Some m => Re.group 1 m
  | None => None
  end.

Definition _find_host_picture (container : node) : option str :=
  first_some
    (fun section =>
       match section with
       | None => None
       | Some sec =>
           first_some
             (fun img =>
                match get_str img "src" with
                | Some ((_ :: _) as src) => Some src
                | _ => None
                end)
             (find_all ["img"] [] sec)
       end)
    (host_sections container).

Definition _detect_superhost_flag (container : node) : bool :=
  let text := lower (get_text (L " ") container) in
  contains (L "superhost") text.

(** [^Response from\s+] *)
Definition re_response_prefix : Re.regex :=
  Re.Seq Re.Bol (Re.Seq (Re.Lit "Response from") (Re.Plus Re.Space)).

Definition parse_host (container : node) : host :=
  let host_link := _find_host_link container in
  let href := match host_link with
              | Some link => get_str link "href"
              | None => None
              end in
  let picture := _find_host_picture container in
  {| id := match href with
           | Some h => _extract_user_id_from_href h
           | None => None
           end;
     firstName := match host_link with
                  | Some link =>
                      match get_text [] link with
                      | [] => None
                      | text => Some (Re.sub_empty Re.IGNORECASE re_response_prefix text)
                      end
                  | None => None
                  end;
     profilePath := href;
     pictureUrl := if truthy_opt picture then picture else None;
     isSuperhost := _detect_superhost_flag container |}.

End HostParser.

(* ================================================================== *)
(** * Exceptions, timestamps and the environment's capabilities *)
(* ================================================================== *)

(** The class of a raised exception; every one is an [Exception].  A
    subclass counts as its base ([dateutil]'s [ParserError] is a
    [ValueError]). *)
Inductive exception : Type :=
| ValueError
| TypeError
| OverflowError
| LangDetectException
| OtherException (class_name : string).

(** A call either raises or returns. *)
Definition result (A : Type) : Type := (exception + A)%type.

Definition bind {A B} (x : result A) (f : A -> result B) : result B :=
  match x with
  | inl e => inl e
  | inr a => f a
  end.

Notation "x <- c1 ;; c2" := (bind c1 (fun x => c2))
  (at level 61, c1 at next level, right associativity).

(** [datetime.datetime]; [tzinfo] is the UTC offset in seconds of an aware
    value, [None] for a naive one. *)
Record datetime := {
  year : N;
  month : N;
  day : N;
  hour : N;
  minute : N;
  second : N;
  microsecond : N;
  tzinfo : option Z
}.

(** The invariant of every [datetime] object. *)
Definition valid_datetime (dt : datetime) : bool :=
  ((1 <=? year dt) && (year dt <=? 9999) &&
   (1 <=? month dt) && (month dt <=? 12) &&
   (1 <=? day dt) && (day dt <=? 31) &&
   (hour dt <=? 23) && (minute dt <=? 59) && (second dt <=? 59) &&
   (microsecond dt <=? 999999))%N.

(** The decimal digits of [n], least significant first. *)
Fixpoint decimal_rev (fuel : nat) (n : N) : str :=
  match fuel with
  | O => []
  | S fuel' =>
      ((48 + n mod 10) :: (if (n / 10 =? 0) then [] else decimal_rev fuel' (n / 10)))%N
  end.

(** [str(n)] *)
Definition decimal (n : N) : str := rev (decimal_rev (S (N.size_nat n)) n).

(** [s.zfill(w)], also ["%0wd" % n] on [decimal n]. *)
Definition zfill (w : nat) (s : str) : str := repeat 48%N (w - length s) ++ s.

(** [dt.replace(tzinfo=None)] *)
Definition replace_tzinfo_None (dt : datetime) : datetime :=
  {| year := year dt; month := month dt; day := day dt; hour := hour dt;
     minute := minute dt; second := second dt; microsecond := microsecond dt;
     tzinfo := None |}.

(** The UTC offset as [isoformat] prints it, [+HH:MM[:SS]]. *)
Definition format_offset (off : Z) : str :=
  let a := Z.to_N (Z.abs off) in
  (if (off <? 0)%Z then L "-" else L "+") ++
  zfill 2 (decimal (a / 3600)) ++ L ":" ++ zfill 2 (decimal ((a / 60) mod 60)) ++
  (if (a mod 60 =? 0)%N then [] else L ":" ++ zfill 2 (decimal (a mod 60))).

(** [dt.isoformat()] : [YYYY-MM-DDTHH:MM:SS], then [.ffffff] when the
    microsecond is not zero, then the offset of an aware value. *)
Definition isoformat (dt : datetime) : str :=
  zfill 4 (decimal (year dt)) ++ L "-" ++ zfill 2 (decimal (month dt)) ++ L "-" ++
  zfill 2 (decimal (day dt)) ++ L "T" ++
  zfill 2 (decimal (hour dt)) ++ L ":" ++ zfill 2 (decimal (minute dt)) ++ L ":" ++
  zfill 2 (decimal (second dt)) ++
  (if (microsecond dt =? 0)%N then [] else L "." ++ zfill 6 (decimal (microsecond dt))) ++
  match tzinfo dt with
  | None => []
  | Some off => format_offset off
  end.

Definition month_names : list string :=
  ["January"; "February"; "March"; "April"; "May"; "June"; "July";
   "August"; "September"; "October"; "November"; "December"].

(** [%B] in the C locale. *)
Definition month_name (m : N) : str :=
  L (nth (N.to_nat m - 1) month_names EmptyString).

(** [dt.strftime("%B %Y")]; the year is printed on four digits. *)
Definition strftime_B_Y (dt : datetime) : str :=
  month_name (month dt) ++ L " " ++ zfill 4 (decimal (year dt)).

(** What the extraction layer consumes from its environment:
    [langdetect.detect] and [dateutil.parser.parse].  Each returns or
    raises; a timestamp that is returned is a well-formed [datetime]. *)
Class Capabilities := {
  detect : str -> result str;
  dateparser_parse : str -> result datetime;
  dateparser_parse_valid :
    forall s dt, dateparser_parse s = inr dt -> valid_datetime dt = true
}.

(* ================================================================== *)
(** * [review_parser.py] *)
(* ================================================================== *)

Module ReviewParser.

Record review := {
  roomUrl : str;
  reviewId : option str;
  rating : option PyNum.pyfloat;
  comment : option str;
  language : option str;
  createdAt : option str;
  localizedDate : option str;
  reviewer : ReviewerParser.reviewer;
  host : HostParser.host;
  response : option str;
  reviewPhotos : list str
}.

(** What the module's logger receives. *)
Inductive log_record : Type :=
| Debug_found (count : nat) (sel : selector)
| Warning_no_containers
| Exception_failed_to_parse (exc : exception).

(** The [soup.select] strategies of [_find_review_containers]:
    [[data-review-id]], [div[data-testid="review"]],
    [div[itemprop="review"]], [div.review] and [article]. *)
Definition by_review_id : selector :=
  {| sel_tag := None; sel_attrs := [("data-review-id", None)]; sel_classes := [] |}.
Definition by_testid : selector :=
  {| sel_tag := Some "div"; sel_attrs := [("data-testid", Some "review")]; sel_classes := [] |}.
Definition by_microdata : selector :=
  {| sel_tag := Some "div"; sel_attrs := [("itemprop", Some "review")]; sel_classes := [] |}.
Definition by_class : selector :=
  {| sel_tag := Some "div"; sel_attrs := []; sel_classes := ["review"] |}.
Definition by_article : selector :=
  {| sel_tag := Some "article"; sel_attrs := []; sel_classes := [] |}.

(** The order in which the source lists them. *)
Definition selectors : list selector :=
  [by_review_id; by_testid; by_microdata; by_class; by_article].

(** The loop of [_find_review_containers] over the selectors still to
    try. *)
Fixpoint find_containers_loop (sels : list selector) (soup : node)
  : list node * list log_record :=
  match sels with
  | [] => ([], [Warning_no_containers])
  | sel :: sels' =>
      match select sel soup with
      | [] => find_containers_loop sels' soup
      | elements => (elements, [Debug_found (length elements) sel])
      end
  end.

Definition _find_review_containers (soup : node) : list node * list log_record :=
  find_containers_loop selectors soup.

(** [review[-_]?(\d+)] *)
Definition re_review_id : Re.regex :=
  Re.Seq (Re.Lit "review")
         (Re.Seq (Re.Opt (Re.OneOf [45; 95]%N)) (Re.Group 1 (Re.Plus Re.Digit))).

Definition _extract_review_id_from_attributes (container : node) : option str :=
  first_some
    (fun av : str * attr_value =>
       match snd av with
       | AList _ => None
       | AStr value =>
           match Re.search Re.no_flags re_review_id value with
           | Some m => Re.group 1 m
           | None => None
           end
       end)
    (attrs container).

Definition comment_candidates : list selector :=
  [ {| sel_tag := Some "div"; sel_attrs := [("data-testid", Some "review-comments")]; sel_classes := [] |};
    {| sel_tag := Some "q"; sel_attrs := []; sel_classes := [] |};
    {| sel_tag := Some "blockquote"; sel_attrs := []; sel_classes := [] |};
    {| sel_tag := Some "p"; sel_attrs := []; sel_classes := [] |} ].

Definition _extract_comment (container : node) : option str :=
  match
    first_some
      (fun sel =>
         match select_one sel container with
         | Some element =>
             match get_text [] element with
             | [] => None
             | text => Some text
             end
         | None => None
         end)
      comment_candidates
  with
  | Some text => Some text
  | None =>
      (* Fallback: look for any <span> with long text *)
      let longest_text :=
        fold_left
          (fun longest_text span =>
             let text := get_text [] span in
             if Nat.ltb (length longest_text) (length text) then text else longest_text)
          (find_all ["span"] [] container) [] in
      match longest_text with
      | [] => None
      | _ => Some longest_text
      end
  end.

(** [(\d+(?:\.\d+)?)] *)
Definition re_number : Re.regex :=
  Re.Group 1 (Re.Seq (Re.Plus Re.Digit)
                     (Re.Opt (Re.Seq (Re.Chr 46) (Re.Plus Re.Digit)))).

(** [(\d+(?:\.\d+)?)\s+out\s+of\s+5] *)
Definition re_out_of_5 : Re.regex :=
  Re.Seq re_number
    (Re.Seq (Re.Plus Re.Space)
       (Re.Seq (Re.Lit "out")
          (Re.Seq (Re.Plus Re.Space)
             (Re.Seq (Re.Lit "of") (Re.Seq (Re.Plus Re.Space) (Re.Chr 53)))))).

(** [(\d+(?:\.\d+)?)\s*/\s*5] *)
Definition re_slash_5 : Re.regex :=
  Re.Seq re_number
    (Re.Seq (Re.Star Re.Space)
       (Re.Seq (Re.Chr 47) (Re.Seq (Re.Star Re.Space) (Re.Chr 53)))).

(** [float(m.group(1))] inside [try ... except ValueError]: [None] when
    the conversion fails.  Group 1 takes part in every match of the two
    rating patterns (lemmas [out_of_5_group] and [slash_5_group]). *)
Definition float_of_group1 (m : Re.match_obj) : option PyNum.pyfloat :=
  match Re.group 1 m with
  | Some g => PyNum.float g
  | None => None
  end.

(** First heuristic of [_extract_rating]: the [content] of the first
    element with [itemprop="ratingValue"]. *)
Definition rating_from_itemprop (container : node) : option PyNum.pyfloat :=
  match find [] [("itemprop", Equals (L "ratingValue"))] container with
  | Some rating_element =>
      match get_str rating_element "content" with
      | Some ((_ :: _) as content) => PyNum.float content
      | _ => None
      end
  | None => None
  end.

(** The body of the second loop of [_extract_rating], for one element
    that has an [aria-label]: the number of a label that matches
    ["<number> out of 5"], when it converts. *)
Definition rating_of_label (elem : node) : option PyNum.pyfloat :=
  match get_str elem "aria-label" with
  | Some label =>
      match Re.search Re.no_flags re_out_of_5 label with
      | Some m => float_of_group1 m
      | None => None
      end
  | None => None
  end.

(** Second heuristic: the first [aria-label], in document order, that
    matches and converts. *)
Definition rating_from_aria_label (container : node) : option PyNum.pyfloat :=
  first_some rating_of_label (find_all [] [("aria-label", Present)] container).

(** Third heuristic: ["<number>/5"] in the container's text. *)
Definition rating_from_text (container : node) : option PyNum.pyfloat :=
  let text := get_text (L " ") container in
  match Re.search Re.no_flags re_slash_5 text with
  | Some m => float_of_group1 m
  | None => None
  end.

Definition _extract_rating (container : node) : option PyNum.pyfloat :=
  match rating_from_itemprop container with
  | Some r => Some r
  | None =>
      match rating_from_aria_label container with
      | Some r => Some r
      | None => rating_from_text container
      end
  end.

(** The text that [_extract_dates] hands to the date parser: the
    [datetime] attribute or the text of the first [time] element, else
    the text of the first [span] whose string attributes mention
    ["date"]; [None] when nothing non-empty is found. *)
Definition find_date_text (container : node) : option str :=
  let time_element := find ["time"] [] container in
  let date_text :=
    match time_element with
    | Some te => or_else (get_str te "datetime") (Some (get_text [] te))
    | None => None
    end in
  let date_text :=
    if negb (truthy_opt date_text) then
      match
        List.find
          (fun span =>
             let attrs :=
               join (L " ")
                    (flat_map (fun av : str * attr_value =>
                                 match snd av with
                                 | AStr v => [v]
                                 | AList _ => []
                                 end) (attrs span)) in
             contains (L "date") (lower attrs))
          (find_all ["span"] [] container)
      with
      | Some span => Some (get_text [] span)
      | None => date_text
      end
    else date_text in
  if negb (truthy_opt date_text) then None else date_text.

Section WithCapabilities.

Context {cap : Capabilities}.

(** The pair is [(created_at, localized_date)]. *)
Definition _extract_dates (container : node) : result (option str * option str) :=
  match find_date_text container with
  | None => inr (None, None)
  | Some date_text =>
      match dateparser_parse date_text with
      | inl ValueError | inl TypeError | inl OverflowError =>
          (* Keep the original as "localizedDate" fallback *)
          inr (None, Some date_text)
      | inl exc => inl exc
      | inr dt =>
          let created_at := isoformat (replace_tzinfo_None dt) ++ L "Z" in
          let localized_date := strftime_B_Y dt in
          inr (Some created_at, Some localized_date)
      end
  end.

(** [language] of [_parse_single_review]: unset without a comment or
    when the detector raises [LangDetectException]; any other
    exception of the detector propagates. *)
Definition detect_language (comment : option str) : result (option str) :=
  match comment with
  | Some ((_ :: _) as c) =>
      match detect c with
      | inr code => inr (Some code)
      | inl LangDetectException => inr None
      | inl exc => inl exc
      end
  | _ => inr None
  end.

End WithCapabilities.

Definition host_response_candidates : list selector :=
  [ {| sel_tag := Some "div";
       sel_attrs := [("data-testid", Some "review-detail-host-response")];
       sel_classes := [] |};
    {| sel_tag := Some "section";
       sel_attrs := [("data-testid", Some "host-response")];
       sel_classes := [] |} ].

(** [Response from.*?:\s*(.+)] *)
Definition re_response_from : Re.regex :=
  Re.Seq (Re.Lit "Response from")
    (Re.Seq (Re.StarLazy Re.Dot)
       (Re.Seq (Re.Chr 58)
          (Re.Seq (Re.Star Re.Space) (Re.Group 1 (Re.Plus Re.Dot))))).

(** Limit very long captures. *)
Definition limit_response (response_text : str) : str :=
  if Nat.ltb 2000 (length response_text)
  then rsplit1_head space (slice_to 2000 response_text) ++ ellipsis
  else response_text.

(** The explicit host-response region: the text of the first candidate
    selector whose first match has text. *)
Definition host_response_region (container : node) : option str :=
  first_some
    (fun sel =>
       match select_one sel container with
       | Some elem =>
           match get_text (L " ") elem with
           | [] => None
           | text => Some text
           end
       | None => None
       end)
    host_response_candidates.

(** Fallback: look for a "Response from" pattern *)
Definition host_response_pattern (container : node) : option str :=
  let text := get_text newline container in
  match Re.search Re.IGNORECASE_DOTALL re_response_from text with
  | Some m =>
      match Re.group 1 m with
      | Some g => Some (limit_response (strip g))
      | None => None
      end
  | None => None
  end.

Definition _extract_host_response (container : node) : option str :=
  match host_response_region container with
  | Some text => Some text
  | None => host_response_pattern container
  end.

(** [if url and url not in photos: photos.append(url)] *)
Definition add_photo (photos : list str) (url : option str) : list str :=
  match url with
  | Some ((_ :: _) as u) =>
      if existsb (PyStr.eqb u) photos then photos else photos ++ [u]
  | _ => photos
  end.

Definition photo_selectors : list selector :=
  [ {| sel_tag := Some "img"; sel_attrs := [("data-testid", Some "review-photo")]; sel_classes := [] |};
    {| sel_tag := Some "img"; sel_attrs := [("data-original-uri", None)]; sel_classes := [] |} ].

(** The URLs the first two loops meet, in the order they meet them. *)
Definition marked_photo_urls (container : node) : list (option str) :=
  flat_map
    (fun sel =>
       List.map (fun img => or_else (get_str img "data-original-uri") (get_str img "src"))
                (select sel container))
    photo_selectors.

(** The URLs the fallback loop meets: the [src] of every [img] below a
    [div] whose classes mention ["photo"] or ["image"]. *)
Definition fallback_photo_urls (container : node) : list (option str) :=
  flat_map
    (fun div =>
       let classes := join (L " ") (get_class div) in
       if existsb (fun keyword => contains (L keyword) (lower classes)) ["photo"; "image"]
       then List.map (fun img => get_str img "src") (find_all ["img"] [] div)
       else [])
    (find_all ["div"] [] container).

Definition _extract_review_photos (container : node) : list str :=
  let photos := fold_left add_photo (marked_photo_urls container) [] in
  match photos with
  | [] => fold_left add_photo (fallback_photo_urls container) photos
  | _ => photos
  end.

Section Assembler.

Context {cap : Capabilities}.

Definition _parse_single_review (container : node) (room_url : str) : result review :=
  let review_id :=
    or_else (get_str container "data-review-id")
            (or_else (get_str container "id")
                     (_extract_review_id_from_attributes container)) in
  let comment := _extract_comment container in
  let rating := _extract_rating container in
  dates <- _extract_dates container ;;
  let response := _extract_host_response container in
  let review_photos := _extract_review_photos container in
  let reviewer := ReviewerParser.parse_reviewer container in
  let host := HostParser.parse_host container in
  language <- detect_language comment ;;
  inr {| roomUrl := room_url;
         reviewId := review_id;
         rating := rating;
         comment := comment;
         language := language;
         createdAt := fst dates;
         localizedDate := snd dates;
         reviewer := reviewer;
         host := host;
         response := response;
         reviewPhotos := review_photos |}.

(** [max_items is not None and len(reviews) >= max_items] *)
Definition limit_reached (max_items : option Z) (reviews : list review) : bool :=
  match max_items with
  | Some m => (m <=? Z.of_nat (length reviews))%Z
  | None => false
  end.

(** The [for] loop of [parse_reviews] from the containers still to
    visit, with the reviews and the log so far.  A container whose
    assembly raises is logged and the loop goes on ([continue]); the
    loop ends ([break]) once [max_items] reviews are collected. *)
Fixpoint parse_loop (room_url : str) (max_items : option Z)
         (containers : list node) (reviews : list review) (log : list log_record)
  : list review * list log_record :=
  match containers with
  | [] => (reviews, log)
  | container :: rest =>
      if limit_reached max_items reviews then (reviews, log)
      else
        match _parse_single_review container room_url with
        | inl exc =>
            parse_loop room_url max_items rest reviews
                       (log ++ [Exception_failed_to_parse exc])
        | inr review =>
            parse_loop room_url max_items rest (reviews ++ [review]) log
        end
  end.

(** [parse_reviews] on the parsed document: what the call returns (or
    the exception it raises), and what it logs. *)
Definition parse_reviews (soup : node) (room_url : str) (max_items : option Z)
  : result (list review) * list log_record :=
  let '(containers, log) := _find_review_containers soup in
  let '(reviews, log') := parse_loop room_url max_items containers [] log in
  (inr reviews, log').

End Assembler.

End ReviewParser.
(* ================================================================== *)
(** * Specification-level definitions *)
(* ================================================================== *)

(** ** What a pattern can match *)

Module ReSpec.

Import Re.

(** [run fl r p caps caps'] : the pattern [r] can consume exactly the
    text [p], turning the captures [caps] into [caps'].  The position
    test of [^] is not recorded. *)
Inductive run (fl : flags) : regex -> str -> captures -> captures -> Prop :=
| run_eps caps : run fl Eps [] caps caps
| run_chr c x caps : chr_eq fl c x = true -> run fl (Chr c) [x] caps caps
| run_digit x caps : isdigit x = true -> run fl Digit [x] caps caps
| run_space x caps : isspace x = true -> run fl Space [x] caps caps
| run_dot x caps :
    dotall fl || negb (x =? 10)%N = true -> run fl Dot [x] caps caps
| run_oneof cs x caps :
    existsb (fun c => chr_eq fl c x) cs = true -> run fl (OneOf cs) [x] caps caps
| run_bol caps : run fl Bol [] caps caps
| run_seq r1 r2 p1 p2 c0 c1 c2 :
    run fl r1 p1 c0 c1 -> run fl r2 p2 c1 c2 -> run fl (Seq r1 r2) (p1 ++ p2) c0 c2
| run_opt_some r p c0 c1 : run fl r p c0 c1 -> run fl (Opt r) p c0 c1
| run_opt_none r caps : run fl (Opt r) [] caps caps
| run_star_nil r caps : run fl (Star r) [] caps caps
| run_star_cons r p1 p2 c0 c1 c2 :
    run fl r p1 c0 c1 -> run fl (Star r) p2 c1 c2 ->
    run fl (Star r) (p1 ++ p2) c0 c2
| run_lazy_nil r caps : run fl (StarLazy r) [] caps caps
| run_lazy_cons r p1 p2 c0 c1 c2 :
    run fl r p1 c0 c1 -> run fl (StarLazy r) p2 c1 c2 ->
    run fl (StarLazy r) (p1 ++ p2) c0 c2
| run_group n r p c0 c1 :
    run fl r p c0 c1 -> run fl (Group n r) p c0 ((n, p) :: c1).

(** The pattern has no capturing group. *)
Fixpoint no_groups (r : regex) : bool :=
  match r with
  | Seq r1 r2 => no_groups r1 && no_groups r2
  | Opt r' | Star r' | StarLazy r' => no_groups r'
  | Group _ _ => false
  | _ => true
  end.

(** The code point [x] can be consumed by some leaf of the pattern. *)
Fixpoint allowed (fl : flags) (r : regex) (x : N) : bool :=
  match r with
  | Eps | Bol => false
  | Chr c => chr_eq fl c x
  | Digit => isdigit x
  | Space => isspace x
  | Dot => dotall fl || negb (x =? 10)%N
  | OneOf cs => existsb (fun c => chr_eq fl c x) cs
  | Seq r1 r2 => allowed fl r1 x || allowed fl r2 x
  | Opt r' | Star r' | StarLazy r' | Group _ r' => allowed fl r' x
  end.

End ReSpec.

(** ** Numerals and the order on floats *)





(** ** Sample documents *)

(** A text node and an element, from literals of the markup. *)
Definition txt (s : string) : node := NavigableString (L s).

Definition el (nm : string) (attributes : list (string * string)) (children : list node)
  : node :=
  Tag (L nm) (List.map (fun kv => (L (fst kv), L (snd kv))) attributes) children.




(** ** The claims about the rating, as predicates *)



(** ** The batch, as the specification words it *)

Section BatchSpec.

Context {cap : Capabilities}.

(** The records of the containers whose assembly does not raise, in
  container order. *)
Definition successes (room_url : str) (containers : list node)
: list ReviewParser.review :=
flat_map (fun c => match ReviewParser._parse_single_review c room_url with
                   | inr r => [r]
                   | inl _ => []
                   end) containers.

(** The exceptions of the containers whose assembly raises, in container
  order. *)
Definition failures (room_url : str) (containers : list node) : list exception :=
flat_map (fun c => match ReviewParser._parse_single_review c room_url with
                   | inr _ => []
                   | inl exc => [exc]
                   end) containers.


End BatchSpec.

(** At most [max_items] leading elements; all of them without a
    maximum. *)
Definition take_max {A} (max_items : option Z) (l : list A) : list A :=
  match max_items with
  | None => l
  | Some m => firstn (Z.to_nat m) l
  end.

(** ** A sample environment *)

(** A detector that answers ["en"], and finds no language in ["12345"]. *)
Definition sample_detect (s : str) : result str :=
  if PyStr.eqb s (L "12345") then inl LangDetectException else inr (L "en").

Definition sample_timestamp_ms : datetime :=
  {| year := 2023; month := 5; day := 1; hour := 12; minute := 34; second := 56;
     microsecond := 789000; tzinfo := Some 0%Z |}.

Definition sample_timestamp_offset : datetime :=
  {| year := 2021; month := 3; day := 4; hour := 5; minute := 6; second := 7;
     microsecond := 0; tzinfo := Some 7200%Z |}.

(** A date parser that knows two timestamps, fails on one text with an
    error that is none of [ValueError], [TypeError], [OverflowError], and
    rejects everything else with a [ValueError]. *)
Definition sample_parse (s : str) : result datetime :=
  if PyStr.eqb s (L "2023-05-01T12:34:56.789Z") then inr sample_timestamp_ms
  else if PyStr.eqb s (L "2021-03-04T05:06:07+02:00") then inr sample_timestamp_offset
  else if PyStr.eqb s (L "???") then inl (OtherException "RuntimeError")
  else inl ValueError.

Lemma sample_parse_valid :
  forall s dt, sample_parse s = inr dt -> valid_datetime dt = true.
Proof.
  intros s dt. unfold sample_parse.
  repeat match goal with |- context [if ?b then _ else _] => destruct b end;
    intros H; inversion H; reflexivity.
Qed.

#[export] Instance sample_capabilities : Capabilities :=
  {| detect := sample_detect;
     dateparser_parse := sample_parse;
     dateparser_parse_valid := sample_parse_valid |}.

(** [<div data-review-id=ID><time datetime=DATE></time><p>COMMENT</p></div>] *)
Definition sample_review (id date comment : string) : node :=
  el "div" [("data-review-id", id)]
     [ el "time" [("datetime", date)] []; el "p" [] [txt comment] ].

Definition page (containers : list node) : node :=
  Tag (L "[document]") [] [ el "html" [] [ el "body" [] containers ] ].

Definition review_a : node := sample_review "a" "2021-03-04T05:06:07+02:00" "Lovely flat".
Definition review_b : node := sample_review "b" "???" "Quiet street".
Definition review_c : node := sample_review "c" "last month" "Great host".
Definition review_d : node := sample_review "d" "2023-05-01T12:34:56.789Z" "Clean rooms".
Definition review_e : node := sample_review "e" "2021-03-04T05:06:07+02:00" "Would return".

(** Three containers; the assembly of the second one raises. *)
Definition page_abc : node := page [review_a; review_b; review_c].

(** Five containers; the assembly of the first one raises. *)
Definition page_bacde : node := page [review_b; review_a; review_c; review_d; review_e].

(** A page with no review container. *)
Definition page_empty : node := page [ el "p" [] [txt "No reviews yet"] ].

Definition room : str := L "https://www.airbnb.com/rooms/1".

(** ** The timestamp formats, as the specification words them *)


(** [.ffffff], printed only for a non-zero microsecond. *)
Definition iso_fraction (dt : datetime) : str :=
  if (microsecond dt =? 0)%N then [] else L "." ++ zfill 6 (decimal (microsecond dt)).


(** ** The host response, as the specification words it *)





(** A container that repeats an image source:
    [<div data-review-id="r5"><img data-testid="review-photo" src="p1.jpg">
     <img data-testid="review-photo" src="p2.jpg">
     <img data-original-uri="p1.jpg" src="thumb.jpg"></div>] *)
Definition container_repeated_photos : node :=
  el "div" [("data-review-id", "r5")]
     [ el "img" [("data-testid", "review-photo"); ("src", "p1.jpg")] [];
       el "img" [("data-testid", "review-photo"); ("src", "p2.jpg")] [];
       el "img" [("data-original-uri", "p1.jpg"); ("src", "thumb.jpg")] [] ].

(** The URL candidates that [_extract_review_photos] goes through: those
    of the photo markers when they yield a photo, else those of the
    fallback. *)
Definition photo_candidates (container : node) : list (option str) :=
  match fold_left ReviewParser.add_photo (ReviewParser.marked_photo_urls container) [] with
  | [] => ReviewParser.fallback_photo_urls container
  | _ => ReviewParser.marked_photo_urls container
  end.

(* ================================================================== *)
(** * Definitions for the further properties *)
(* ================================================================== *)

(** ** Definitions for the further properties *)

(** What a comment marker contributes: the text of its first match, when
    that text is not empty. *)
Definition marker_text (container : node) (sel : selector) : option str :=
  match select_one sel container with
  | Some element =>
      match get_text [] element with
      | [] => None
      | text => Some text
      end
  | None => None
  end.

(** [<div><p>  </p><span>ok</span><span>Very nice</span>
     <span>Very good</span></div>] : an empty marker, then spans. *)
Definition container_spans : node :=
  el "div" [] [ el "p" [] [txt "  "];
                el "span" [] [txt "ok"]; el "span" [] [txt "Very nice"];
                el "span" [] [txt "Very good"] ].


(** The test of the second loop of [_extract_dates]: the string-valued
    attributes of the [span], joined by spaces, mention ["date"] in any
    letter case. *)
Definition mentions_date (span : node) : bool :=
  contains (L "date")
    (lower (join (L " ")
                 (flat_map (fun av : str * attr_value =>
                              match snd av with
                              | AStr v => [v]
                              | AList _ => []
                              end) (attrs span)))).


(** The first profile link inside a host-response section, as the first
    loop of [_find_host_link] finds it. *)
Definition host_section_link (container : node) : option node :=
  first_some
    (fun section =>
       match section with
       | None => None
       | Some sec =>
           List.find HostParser.is_profile_link (find_all ["a"] [("href", Present)] sec)
       end)
    (HostParser.host_sections container).



(** The tests of [_find_reviewer_location] on the text of an element. *)
Definition is_tenure (text : str) : bool :=
  contains (L "years on airbnb") (lower text) || contains (L "year on airbnb") (lower text).

Definition is_location_candidate (text : str) : bool :=
  contains (L "from ") (lower text) && Nat.ltb (length text) 80.

(** A review with its author and the host's reply:
    [<div data-review-id="r8"><a href="/users/show/12345">Ann</a>
     <img alt="Guest photo" width="40" height="40" src="small.jpg">
     <img alt="Ann's profile" src="ann.jpg"><span>From Lisbon, Portugal</span>
     <section data-testid="host-response">
     <a href="/users/show/67890">Response from  Maria</a>
     <img src="maria.jpg"><p>Thanks</p></section></div>] *)
Definition container_with_host : node :=
  el "div" [("data-review-id", "r8")]
     [ el "a" [("href", "/users/show/12345")] [txt "Ann"];
       el "img" [("alt", "Guest photo"); ("width", "40"); ("height", "40");
                 ("src", "small.jpg")] [];
       el "img" [("alt", "Ann's profile"); ("src", "ann.jpg")] [];
       el "span" [] [txt "From Lisbon, Portugal"];
       el "section" [("data-testid", "host-response")]
          [ el "a" [("href", "/users/show/67890")] [txt "Response from  Maria"];
            el "img" [("src", "maria.jpg")] [];
            el "p" [] [txt "Thanks"] ] ].

(** The host's link of [container_with_host]. *)
Definition maria_link : node :=
  el "a" [("href", "/users/show/67890")] [txt "Response from  Maria"].

(** [src = img.get("src")] guarded by [if src:]. *)
Definition nonempty_src (img : node) : option str :=
  match get_str img "src" with
  | Some ((_ :: _) as src) => Some src
  | _ => None
  end.

(** The class test of the fallback loop of [_extract_review_photos]. *)
Definition is_photo_div (div : node) : bool :=
  existsb (fun keyword => contains (L keyword) (lower (join (L " ") (get_class div))))
          ["photo"; "image"].

(** An [<img>] element below [container]. *)
Definition image_of (container img : node) : Prop :=
  In img (descendants container) /\ name img = L "img".

(** [<div><span class="review-date">May 2021</span></div>] : the date is
    marked by a class only. *)
Definition container_date_in_class : node :=
  el "div" [] [ el "span" [("class", "review-date")] [txt "May 2021"] ].

(** [<div><span data-testid="Review-Date">May 2021</span></div>] *)
Definition container_date_in_testid : node :=
  el "div" [] [ el "span" [("data-testid", "Review-Date")] [txt "May 2021"] ].

(* ================================================================== *)
(** * [data_formatter.py] : the XML tree *)
(* ================================================================== *)

Module DataFormatter.

(** What the exporter is handed: [None], a [list], a [dict] with [str]
    keys (in insertion order), or any other object.  Of the latter the
    exporter only takes [str(data)], so [VScalar t] stands for an object
    whose [str] is [t] (a [str] is its own text). *)
Inductive value : Type :=
| VNone
| VScalar (text : str)
| VList (items : list value)
| VDict (items : list (str * value)).

(** An [xml.etree.ElementTree.Element]: its tag, its text and its
    children. *)
Inductive element : Type :=
| Element (tag : str) (text : option str) (children : list element).

Definition tag (e : element) : str := match e with Element t _ _ => t end.
Definition text (e : element) : option str := match e with Element _ x _ => x end.
Definition children (e : element) : list element := match e with Element _ _ c => c end.

(** [parent.append(child)], which [SubElement(parent, ...)] does with the
    new element. *)
Definition append (parent child : element) : element :=
  Element (tag parent) (text parent) (children parent ++ [child]).

(** [parent.text = t] *)
Definition set_text (parent : element) (t : str) : element :=
  Element (tag parent) (Some t) (children parent).

(** [s.replace(old, new)] for one-character [old] and [new]. *)
Definition replace (old new : N) (s : str) : str :=
  List.map (fun c => if (c =? old)%N then new else c) s.

(** [_populate_xml(parent, data, prefix)]; the result is [parent] after
    the call. *)
Fixpoint _populate_xml (parent : element) (data : value) (prefix : str) {struct data}
  : element :=
  match data with
  | VDict items =>
      fold_left
        (fun parent kv =>
           let tag := replace 46 95 (prefix ++ fst kv) in
           append parent (_populate_xml (Element tag None []) (snd kv) []))
        items parent
  | VList items =>
      fold_left
        (fun parent item =>
           append parent (_populate_xml (Element (L "item") None []) item []))
        items parent
  | VNone => set_text parent []
  | VScalar t => set_text parent t
  end.

(** The tree that [_export_xml] writes. *)
Definition _export_xml (reviews : list value) : element :=
  fold_left
    (fun root review =>
       append root (_populate_xml (Element (L "review") None []) review []))
    reviews (Element (L "reviews") None []).

End DataFormatter.

(** Every tag of a tree, the root's first. *)
Fixpoint tags (e : DataFormatter.element) : list str :=
  match e with
  | DataFormatter.Element t _ cs => t :: flat_map tags cs
  end.

(* ================================================================== *)
(** * [main.py] : one room, and where the output goes *)
(* ================================================================== *)

Module Main.

(** What [json.load] returns; a [dict] keeps its items in order. *)
Inductive json : Type :=
| JNull
| JBool (b : bool)
| JInt (z : Z)
| JFloat (f : PyNum.pyfloat)
| JStr (s : str)
| JList (items : list json)
| JDict (items : list (str * json)).

(** [bool(v)] *)
Definition truthy (v : json) : bool :=
  match v with
  | JNull => false
  | JBool b => b
  | JInt z => negb (z =? 0)%Z
  | JFloat (S754_zero _) => false
  | JFloat _ => true
  | JStr s => PyStr.truthy s
  | JList [] => false
  | JList _ => true
  | JDict [] => false
  | JDict _ => true
  end.

(** [d.get(key)] *)
Definition dict_get (d : list (str * json)) (key : string) : json :=
  match assoc (L key) d with
  | Some v => v
  | None => JNull
  end.

Definition AttributeError : exception := OtherException "AttributeError".



Section DetermineOutput.

(** [str(Path("data") / name)] *)
Variable data_path : str -> str.


End DetermineOutput.



Section ScrapeRoom.

Context {cap : Capabilities}.

(** [session.get(room_url, timeout=timeout)] with
    [response.raise_for_status()] : the text of the response, or what
    was raised. *)
Variable fetch : str -> result str.

(** [BeautifulSoup(html, "lxml")] *)
Variable BeautifulSoup : str -> node.



End ScrapeRoom.

End Main.




(** An input that asks for CSV, and settings that ask for XML. *)
Definition sample_input_cfg : list (str * Main.json) :=
  [ (L "roomUrls", Main.JList [Main.JStr room]);
    (L "output", Main.JDict [(L "format", Main.JStr (L "CSV"))]) ].


(* ================================================================== *)
(** * [main.py] : the settings and the input *)
(* ================================================================== *)

Module Config.

Import Main.

(** [d.setdefault(key, default)] on the items of a [dict]: a key that is
    there keeps its value, whatever it is. *)
Definition setdefault (d : list (str * json)) (key : string) (default : json)
  : list (str * json) :=
  match assoc (L key) d with
  | Some _ => d
  | None => d ++ [(L key, default)]
  end.

Definition default_user_agent : json :=
  JStr (L "Mozilla/5.0 (compatible; AirbnbRoomReviewsScraper/1.0)").

(** The defaults of [load_settings], in the order the source gives
    them. *)
Definition defaults : list (string * json) :=
  [ ("user_agent", default_user_agent);
    ("timeout", JInt 20);
    ("verify_ssl", JBool true);
    ("proxies", JNull);
    ("output_format", JStr (L "json"));
    ("max_reviews_per_room", JInt 200);
    ("concurrent_requests", JInt 2) ].

(** [load_settings(path)], given whether [path] is a file and what
    [json.load] makes of it (a value, or what it raises). *)
Definition load_settings (is_file : bool) (loaded : result json) : result json :=
  if negb is_file
  then inr (JDict (List.map (fun kv => (L (fst kv), snd kv)) defaults))
  else
    data <- loaded ;;
    match data with
    | JDict d =>
        inr (JDict (fold_left (fun d kv => setdefault d (fst kv) (snd kv)) defaults d))
    | _ => inl AttributeError
    end.

Definition FileNotFoundError : exception := OtherException "FileNotFoundError".

(** ["roomUrls" in data] *)
Definition has_roomUrls (data : json) : result bool :=
  match data with
  | JDict d => inr (match assoc (L "roomUrls") d with Some _ => true | None => false end)
  | JList items =>
      inr (existsb (fun item => match item with
                                | JStr s => PyStr.eqb s (L "roomUrls")
                                | _ => false
                                end) items)
  | JStr s => inr (contains (L "roomUrls") s)
  | _ => inl TypeError
  end.

(** [data["roomUrls"]], once the key is known to be in [data]. *)
Definition get_roomUrls (data : json) : result json :=
  match data with
  | JDict d => inr (dict_get d "roomUrls")
  | _ => inl TypeError
  end.

(** [load_input(path)], given whether [path] is a file and what
    [json.load] makes of it. *)
Definition load_input (is_file : bool) (loaded : result json) : result json :=
  if negb is_file then inl FileNotFoundError
  else
    data <- loaded ;;
    present <- has_roomUrls data ;;
    if negb present then inl ValueError
    else
      urls <- get_roomUrls data ;;
      match urls with
      | JList _ => inr data
      | _ => inl ValueError
      end.

End Config.

(* ================================================================== *)
(** * Properties *)
(* ================================================================== *)

(** ** Lists and strings *)

Lemma firstn_app_exact {A} (p s : list A) :
  firstn (length (p ++ s) - length s) (p ++ s) = p.
Proof.
  rewrite length_app, Nat.add_sub.
  rewrite firstn_app, Nat.sub_diag, firstn_all. simpl. apply app_nil_r.
Qed.

(** ** Soundness of the matcher *)

Section MatcherSound.

Import Re ReSpec.

Variable fl : flags.
Variable n0 : nat.

Lemma step1_inv {A} (p : N -> bool) (s : str) (k : str -> option A) res :
  step1 p s k = Some res ->
  exists x s', s = x :: s' /\ p x = true /\ k s' = Some res.
Proof.
  destruct s as [|x s']; simpl; [discriminate|].
  destruct (p x) eqn:E; [|discriminate].
  intros H. exists x, s'. auto.
Qed.

(** What a matcher for a pattern [r] must satisfy. *)
Definition sound_for (r : regex) : Prop :=
  forall A s caps (k : str -> captures -> option A) res,
    mt fl n0 r s caps k = Some res ->
    exists p s' caps',
      s = p ++ s' /\ run fl r p caps caps' /\ k s' caps' = Some res.

Lemma star_loop_sound r :
  sound_for r ->
  forall A (k : str -> captures -> option A) fuel s caps res,
    star_loop (fun s0 caps0 k0 => mt fl n0 r s0 caps0 k0) k fuel s caps = Some res ->
    exists p s' caps',
      s = p ++ s' /\ run fl (Star r) p caps caps' /\ k s' caps' = Some res.
Proof.
  intros IH A k fuel.
  induction fuel as [|fuel IHf]; intros s caps res H; simpl in H.
  - exists [], s, caps. repeat split; auto. constructor.
  - destruct (mt fl n0 r s caps _) as [res'|] eqn:E.
    + injection H as ->.
      apply IH in E. destruct E as (p1 & s1 & c1 & -> & R1 & K1).
      destruct (Nat.ltb _ _); [|discriminate].
      apply IHf in K1. destruct K1 as (p2 & s2 & c2 & -> & R2 & K2).
      exists (p1 ++ p2), s2, c2. rewrite app_assoc. repeat split; auto.
      econstructor; eauto.
    + exists [], s, caps. repeat split; auto. constructor.
Qed.

Lemma lazy_loop_sound r :
  sound_for r ->
  forall A (k : str -> captures -> option A) fuel s caps res,
    lazy_loop (fun s0 caps0 k0 => mt fl n0 r s0 caps0 k0) k fuel s caps = Some res ->
    exists p s' caps',
      s = p ++ s' /\ run fl (StarLazy r) p caps caps' /\ k s' caps' = Some res.
Proof.
  intros IH A k fuel.
  induction fuel as [|fuel IHf]; intros s caps res H; simpl in H.
  - destruct (k s caps) eqn:E; [|discriminate].
    exists [], s, caps. repeat split; auto; [constructor|congruence].
  - destruct (k s caps) eqn:E.
    + exists [], s, caps. repeat split; auto; [constructor|congruence].
    + apply IH in H. destruct H as (p1 & s1 & c1 & -> & R1 & K1).
      destruct (Nat.ltb _ _); [|discriminate].
      apply IHf in K1. destruct K1 as (p2 & s2 & c2 & -> & R2 & K2).
      exists (p1 ++ p2), s2, c2. rewrite app_assoc. repeat split; auto.
      econstructor; eauto.
Qed.

Lemma mt_sound r : sound_for r.
Proof.
  induction r; intros A s caps k res H;
    [ simpl in H | simpl in H | simpl in H | simpl in H | simpl in H
    | simpl in H | simpl in H | simpl in H | simpl in H | | | simpl in H ].
  - exists [], s, caps. repeat split; auto. constructor.
  - apply step1_inv in H. destruct H as (x & s' & -> & P & K).
    exists [x], s', caps. repeat split; auto. constructor; auto.
  - apply step1_inv in H. destruct H as (x & s' & -> & P & K).
    exists [x], s', caps. repeat split; auto. constructor; auto.
  - apply step1_inv in H. destruct H as (x & s' & -> & P & K).
    exists [x], s', caps. repeat split; auto. constructor; auto.
  - apply step1_inv in H. destruct H as (x & s' & -> & P & K).
    exists [x], s', caps. repeat split; auto. constructor; auto.
  - apply step1_inv in H. destruct H as (x & s' & -> & P & K).
    exists [x], s', caps. repeat split; auto. constructor; auto.
  - destruct (Nat.eqb _ _); [|discriminate].
    exists [], s, caps. repeat split; auto. constructor.
  - apply IHr1 in H. destruct H as (p1 & s1 & c1 & -> & R1 & K1).
    apply IHr2 in K1. destruct K1 as (p2 & s2 & c2 & -> & R2 & K2).
    exists (p1 ++ p2), s2, c2. rewrite app_assoc. repeat split; auto.
    econstructor; eauto.
  - destruct (mt fl n0 r s caps k) eqn:E.
    + injection H as ->. apply IHr in E.
      destruct E as (p1 & s1 & c1 & -> & R1 & K1).
      exists p1, s1, c1. repeat split; auto. apply run_opt_some; auto.
    + exists [], s, caps. repeat split; auto. apply run_opt_none.
  - change (star_loop (fun s0 caps0 k0 => mt fl n0 r s0 caps0 k0) k
                      (S (length s)) s caps = Some res) in H.
    eapply star_loop_sound; eauto.
  - change (lazy_loop (fun s0 caps0 k0 => mt fl n0 r s0 caps0 k0) k
                      (S (length s)) s caps = Some res) in H.
    eapply lazy_loop_sound; eauto.
  - apply IHr in H. destruct H as (p1 & s1 & c1 & -> & R1 & K1).
    rewrite firstn_app_exact in K1.
    exists p1, s1, ((n, p1) :: c1). repeat split; auto. constructor; auto.
Qed.

End MatcherSound.

Section SearchSound.

Import Re ReSpec.

Lemma match_at_sound fl n0 r s pos m :
  match_at fl n0 r s pos = Some m ->
  exists p suf,
    s = p ++ suf /\ run fl r p [] (m_groups m) /\ m_text m = p /\ m_start m = pos.
Proof.
  unfold match_at. intros E. apply mt_sound in E.
  destruct E as (p & s' & c & -> & R & K).
  rewrite firstn_app_exact in K. injection K as <-. simpl.
  exists p, s'. auto.
Qed.

Lemma search_from_sound fl n0 r s pos m :
  search_from fl n0 r s pos = Some m ->
  exists pre p suf,
    s = pre ++ p ++ suf /\ run fl r p [] (m_groups m) /\ m_text m = p /\
    m_start m = pos + length pre.
Proof.
  revert pos. induction s as [|x s IH]; intros pos H; simpl in H.
  - destruct (match_at fl n0 r [] pos) eqn:E; [|discriminate].
    injection H as ->. apply match_at_sound in E.
    destruct E as (p & suf & Hs & R & T & St).
    exists [], p, suf. simpl. rewrite Nat.add_0_r. auto.
  - destruct (match_at fl n0 r (x :: s) pos) eqn:E.
    + injection H as ->. apply match_at_sound in E.
      destruct E as (p & suf & Hs & R & T & St).
      exists [], p, suf. simpl. rewrite Nat.add_0_r. auto.
    + apply IH in H. destruct H as (pre & p & suf & -> & R & T & St).
      exists (x :: pre), p, suf. simpl. repeat split; auto. lia.
Qed.

(** A match found by [re.search] is a substring of the subject that the
    pattern can consume, with the groups that run set. *)
Lemma search_sound fl r s m :
  search fl r s = Some m ->
  exists pre p suf,
    s = pre ++ p ++ suf /\ run fl r p [] (m_groups m) /\ m_text m = p /\
    m_start m = length pre.
Proof.
  unfold search. intros H. apply search_from_sound in H.
  destruct H as (pre & p & suf & ? & ? & ? & ?). exists pre, p, suf. auto.
Qed.

Lemma run_no_groups fl r p c c' :
  run fl r p c c' -> no_groups r = true -> c' = c.
Proof.
  induction 1; simpl; intros G; auto; try discriminate.
  - apply andb_prop in G. destruct G as [G1 G2].
    rewrite IHrun2, IHrun1; auto.
  - rewrite IHrun2, IHrun1; auto.
  - rewrite IHrun2, IHrun1; auto.
Qed.

Lemma run_allowed fl r p c c' :
  run fl r p c c' -> Forall (fun x => allowed fl r x = true) p.
Proof.
  induction 1; simpl; auto.
  - apply Forall_app. split.
    + eapply Forall_impl; [|exact IHrun1]. simpl. intros a ->. reflexivity.
    + eapply Forall_impl; [|exact IHrun2]. simpl. intros a ->. apply orb_true_r.
  - apply Forall_app. split; auto.
  - apply Forall_app. split; auto.
Qed.

End SearchSound.

(** ** What the rating patterns capture *)

Section RatingPatterns.

Import Re ReSpec ReviewParser.





End RatingPatterns.

(** ** The sign of a converted numeral *)

Section FloatSign.

Import PyNum.














End FloatSign.

(** ** The rating *)

Lemma first_some_app_skip {A B} (f : A -> option B) pre l :
  (forall x, In x pre -> f x = None) ->
  first_some f (pre ++ l) = first_some f l.
Proof.
  induction pre as [|x pre IH]; intros H; simpl; auto.
  rewrite (H x) by (left; reflexivity). apply IH.
  intros y Hy. apply H. right. exact Hy.
Qed.

Lemma first_some_In {A B} (f : A -> option B) l y :
  first_some f l = Some y -> exists x, In x l /\ f x = Some y.
Proof.
  induction l as [|x l IH]; simpl; [discriminate|].
  destruct (f x) eqn:E.
  - intros H. injection H as <-. exists x. auto.
  - intros H. destruct (IH H) as (x' & I & F). exists x'. auto.
Qed.







(** ** The loop of [parse_reviews] *)

Section Batch.

Import ReviewParser.

Context {cap : Capabilities}.

Lemma successes_app room_url l1 l2 :
  successes room_url (l1 ++ l2) = successes room_url l1 ++ successes room_url l2.
Proof. apply flat_map_app. Qed.

Lemma failures_app room_url l1 l2 :
  failures room_url (l1 ++ l2) = failures room_url l1 ++ failures room_url l2.
Proof. apply flat_map_app. Qed.

Lemma successes_cons room_url c rest :
  successes room_url (c :: rest) =
  match _parse_single_review c room_url with
  | inr r => r :: successes room_url rest
  | inl _ => successes room_url rest
  end.
Proof.
  unfold successes. simpl. destruct (_parse_single_review c room_url); reflexivity.
Qed.

Lemma failures_cons room_url c rest :
  failures room_url (c :: rest) =
  match _parse_single_review c room_url with
  | inr _ => failures room_url rest
  | inl exc => exc :: failures room_url rest
  end.
Proof.
  unfold failures. simpl. destruct (_parse_single_review c room_url); reflexivity.
Qed.

Lemma successes_failed room_url c exc :
  _parse_single_review c room_url = inl exc -> successes room_url [c] = [].
Proof. intros H. rewrite successes_cons, H. reflexivity. Qed.

(** The reviews the loop returns: those it had, then the records of the
    containers that assemble, up to [max_items] reviews in all. *)
Lemma parse_loop_reviews room_url max_items containers :
  forall reviews log,
    fst (parse_loop room_url max_items containers reviews log) =
    match max_items with
    | None => reviews ++ successes room_url containers
    | Some m =>
        reviews ++ firstn (Z.to_nat m - length reviews) (successes room_url containers)
    end.
Proof.
  induction containers as [|c rest IH]; intros reviews log.
  - simpl. destruct max_items; rewrite ?firstn_nil, app_nil_r; reflexivity.
  - cbn [parse_loop]. unfold limit_reached. rewrite successes_cons.
    destruct max_items as [m|].
    + destruct (m <=? Z.of_nat (length reviews))%Z eqn:E.
      * apply Z.leb_le in E. cbn [fst].
        replace (Z.to_nat m - length reviews) with 0 by lia.
        rewrite firstn_O, app_nil_r. reflexivity.
      * apply Z.leb_gt in E.
        destruct (_parse_single_review c room_url) as [exc|r]; rewrite IH.
        -- reflexivity.
        -- rewrite length_app. cbn [length].
           destruct (Z.to_nat m - length reviews) as [|k] eqn:K; [lia|].
           cbn [firstn]. rewrite <- app_assoc. cbn [app].
           replace (Z.to_nat m - (length reviews + 1)) with k by lia.
           reflexivity.
    + destruct (_parse_single_review c room_url) as [exc|r]; rewrite IH.
      * reflexivity.
      * rewrite <- app_assoc. reflexivity.
Qed.

(** Without a maximum, the loop logs the exception of every container
    that raises. *)
Lemma parse_loop_log_unbounded room_url containers :
  forall reviews log,
    snd (parse_loop room_url None containers reviews log) =
    log ++ List.map Exception_failed_to_parse (failures room_url containers).
Proof.
  induction containers as [|c rest IH]; intros reviews log.
  - simpl. rewrite app_nil_r. reflexivity.
  - cbn [parse_loop limit_reached]. rewrite failures_cons.
    destruct (_parse_single_review c room_url) as [exc|r]; rewrite IH.
    + rewrite <- app_assoc. reflexivity.
    + reflexivity.
Qed.


Lemma parse_reviews_eq soup room_url max_items :
  parse_reviews soup room_url max_items =
  (inr (take_max max_items (successes room_url (fst (_find_review_containers soup)))),
 snd (parse_loop room_url max_items (fst (_find_review_containers soup)) []
                 (snd (_find_review_containers soup)))).
Proof.
  unfold parse_reviews.
  destruct (_find_review_containers soup) as [containers log0]. simpl.
  pose proof (parse_loop_reviews room_url max_items containers [] log0) as H.
  destruct (parse_loop room_url max_items containers [] log0) as [reviews log].
  simpl in *. subst reviews. unfold take_max.
  destruct max_items; simpl; rewrite ?Nat.sub_0_r; reflexivity.
Qed.

Lemma successes_In room_url containers r :
  In r (successes room_url containers) ->
  exists c, In c containers /\ _parse_single_review c room_url = inr r.
Proof.
  unfold successes. rewrite in_flat_map. intros (c & I & H).
  exists c. split; auto.
  destruct (_parse_single_review c room_url); simpl in H; [contradiction|].
  destruct H as [->|[]]. reflexivity.
Qed.

Lemma take_max_In {A} max_items (l : list A) x :
  In x (take_max max_items l) -> In x l.
Proof.
  unfold take_max. destruct max_items as [m|]; auto.
  intros H. rewrite <- (firstn_skipn (Z.to_nat m) l). apply in_or_app. left. exact H.
Qed.

(** Every record of the output is the record of some container of the
  page. *)
Lemma parse_reviews_In soup room_url max_items reviews log r :
  parse_reviews soup room_url max_items = (inr reviews, log) ->
  In r reviews ->
  exists c, In c (fst (_find_review_containers soup)) /\
          _parse_single_review c room_url = inr r.
Proof.
  rewrite parse_reviews_eq. intros H I. injection H as <- _.
  apply take_max_In in I. apply successes_In in I. exact I.
Qed.

(** What a record is made of. *)
Lemma parse_single_review_inv container room_url r :
  _parse_single_review container room_url = inr r ->
  exists dates lang,
  _extract_dates container = inr dates /\
  detect_language (_extract_comment container) = inr lang /\
  createdAt r = fst dates /\ localizedDate r = snd dates /\
  language r = lang /\ roomUrl r = room_url /\
  rating r = _extract_rating container /\
  comment r = _extract_comment container /\
  response r = _extract_host_response container /\
  reviewPhotos r = _extract_review_photos container /\
  reviewer r = ReviewerParser.parse_reviewer container /\
  host r = HostParser.parse_host container.
Proof.
  unfold _parse_single_review, bind.
  destruct (_extract_dates container) as [e|dates]; [discriminate|].
  destruct (detect_language (_extract_comment container)) as [e|lang]; [discriminate|].
  intros H. injection H as <-. exists dates, lang. simpl. repeat split; reflexivity.
Qed.

End Batch.

(** C1: a container whose assembly raises is skipped, the error is not
    propagated, and the containers after it are still processed.  For a
    page whose containers are [pre ++ c :: post], with the assembly of [c]
    raising [exc]: [parse_reviews] returns (it does not raise); what it
    returns is exactly what it returns for the containers [pre ++ post],
    that is, the records of the containers of [pre] and of [post] that
    assemble, in order, up to [max_items]; and without a maximum, [exc] is
    among the logged exceptions. *)
Theorem failing_container_is_skipped :
  forall (cap : Capabilities) soup room_url max_items pre c post log0 exc,
    ReviewParser._find_review_containers soup = (pre ++ c :: post, log0) ->
    ReviewParser._parse_single_review c room_url = inl exc ->
    exists reviews log,
      ReviewParser.parse_reviews soup room_url max_items = (inr reviews, log) /\
      reviews = take_max max_items (successes room_url pre ++ successes room_url post) /\
      reviews = fst (ReviewParser.parse_loop room_url max_items (pre ++ post) [] log0) /\
      (max_items = None ->
       reviews = successes room_url pre ++ successes room_url post /\
       In (ReviewParser.Exception_failed_to_parse exc) log).
Proof.
  intros cap soup room_url max_items pre c post log0 exc HF HE.
  rewrite parse_reviews_eq, HF. simpl.
  change (c :: post) with ([c] ++ post).
  rewrite !successes_app, (successes_failed _ _ HE). simpl.
  eexists; eexists. split; [reflexivity|]. split; [reflexivity|]. split.
  - rewrite parse_loop_reviews, successes_app. unfold take_max.
    destruct max_items; simpl; rewrite ?Nat.sub_0_r; reflexivity.
  - intros ->. split; [reflexivity|].
    rewrite parse_loop_log_unbounded, failures_app, map_app.
    apply in_or_app. right. apply in_or_app. right.
    rewrite failures_cons, HE. left. reflexivity.
Qed.

Lemma failing_container_is_skipped_witness :
  ReviewParser._find_review_containers page_abc =
    ([review_a] ++ review_b :: [review_c],
     [ReviewParser.Debug_found 3 ReviewParser.by_review_id]) /\
  ReviewParser._parse_single_review review_b room = inl (OtherException "RuntimeError") /\
  exists reviews log,
    ReviewParser.parse_reviews page_abc room None = (inr reviews, log) /\
    reviews = successes room [review_a] ++ successes room [review_c] /\
    length reviews = 2.
Proof.
  split; [vm_compute; reflexivity|].
  split; [vm_compute; reflexivity|].
  destruct (@failing_container_is_skipped sample_capabilities page_abc room None
              [review_a] review_b [review_c]
              [ReviewParser.Debug_found 3 ReviewParser.by_review_id]
              (OtherException "RuntimeError")
              ltac:(vm_compute; reflexivity) ltac:(vm_compute; reflexivity))
    as (reviews & log & HP & HR & _).
  exists reviews, log. split; [exact HP|]. split; [exact HR|].
  rewrite HR. vm_compute. reflexivity.
Defined.




(** ** The container locator *)

Section Locator.

Import ReviewParser.

Lemma find_containers_loop_cases sels soup :
  (exists pre sel post,
    sels = pre ++ sel :: post /\
    (forall s, In s pre -> select s soup = []) /\
    select sel soup <> [] /\
    find_containers_loop sels soup =
      (select sel soup, [Debug_found (length (select sel soup)) sel])) \/
  ((forall s, In s sels -> select s soup = []) /\
 find_containers_loop sels soup = ([], [Warning_no_containers])).
Proof.
  induction sels as [|sel sels IH].
  - right. split; [intros s []|reflexivity].
  - simpl. destruct (select sel soup) as [|x xs] eqn:E.
  + destruct IH as [(pre & s1 & post & -> & Hpre & Hne & HL)|[Hall HL]].
    * left. exists (sel :: pre), s1, post. repeat split; auto.
      intros s [<-|I]; auto.
    * right. split; auto. intros s [<-|I]; auto.
  + left. exists [], sel, sels. rewrite E. repeat split; auto.
    * intros s [].
    * discriminate.
Qed.

Lemma find_containers_loop_later pre sel later soup :
  select sel soup <> [] ->
  find_containers_loop (pre ++ sel :: later) soup =
  find_containers_loop (pre ++ [sel]) soup.
Proof.
  intros Hne. induction pre as [|s pre IH]; simpl.
  - destruct (select sel soup); [congruence|reflexivity].
  - destruct (select s soup); [exact IH|reflexivity].
Qed.

End Locator.

(** C2: the container locator returns the nodes matched by the first
    strategy, in the fixed order (review-id attribute, test-id,
    microdata, class [review], [article]), that matches at least one node,
    and the strategies listed after it play no part; when no strategy
    matches, it returns no container and [parse_reviews] returns the empty
    sequence, without raising. *)
Theorem locator_uses_first_matching_strategy :
  forall (cap : Capabilities) soup room_url max_items,
    ReviewParser.selectors =
      [ReviewParser.by_review_id; ReviewParser.by_testid; ReviewParser.by_microdata;
       ReviewParser.by_class; ReviewParser.by_article] /\
    ((exists pre sel post,
         ReviewParser.selectors = pre ++ sel :: post /\
         (forall s, In s pre -> select s soup = []) /\
         select sel soup <> [] /\
         ReviewParser._find_review_containers soup =
           (select sel soup,
            [ReviewParser.Debug_found (length (select sel soup)) sel]) /\
         (forall later,
             ReviewParser.find_containers_loop (pre ++ sel :: later) soup =
             ReviewParser.find_containers_loop (pre ++ [sel]) soup)) \/
     ((forall s, In s ReviewParser.selectors -> select s soup = []) /\
      ReviewParser._find_review_containers soup =
        ([], [ReviewParser.Warning_no_containers]) /\
      ReviewParser.parse_reviews soup room_url max_items =
        (inr [], [ReviewParser.Warning_no_containers]))).
Proof.
  intros cap soup room_url max_items. split; [reflexivity|].
  unfold ReviewParser._find_review_containers.
  destruct (find_containers_loop_cases ReviewParser.selectors soup)
    as [(pre & sel & post & HS & Hpre & Hne & HL)|[Hall HL]].
  - left. exists pre, sel, post. repeat split; auto.
    intros later. apply find_containers_loop_later, Hne.
  - right. repeat split; auto.
    unfold ReviewParser.parse_reviews, ReviewParser._find_review_containers.
    rewrite HL. reflexivity.
Qed.

(** ** Dates *)

(** C5: in every record that [parse_reviews] emits, [createdAt] set
    implies [localizedDate] set.  When a date text is found and the parser
    rejects it ([ValueError], [TypeError] or [OverflowError]), the raw
    text is kept as [localizedDate] and [createdAt] stays unset; such a
    record exists, so [localizedDate] without [createdAt] is possible. *)
Theorem created_at_implies_localized_date :
  forall (cap : Capabilities) soup room_url max_items,
    (forall reviews log r,
        ReviewParser.parse_reviews soup room_url max_items = (inr reviews, log) ->
        In r reviews ->
        ReviewParser.createdAt r <> None -> ReviewParser.localizedDate r <> None) /\
    (forall container date_text exc,
        ReviewParser.find_date_text container = Some date_text ->
        dateparser_parse date_text = inl exc ->
        exc = ValueError \/ exc = TypeError \/ exc = OverflowError ->
        ReviewParser._extract_dates container = inr (None, Some date_text) /\
        forall r, ReviewParser._parse_single_review container room_url = inr r ->
                  ReviewParser.createdAt r = None /\
                  ReviewParser.localizedDate r = Some date_text) /\
    (exists r,
        @ReviewParser._parse_single_review sample_capabilities review_c room = inr r /\
        ReviewParser.createdAt r = None /\
        ReviewParser.localizedDate r = Some (L "last month")).
Proof.
  intros cap soup room_url max_items. split; [|split].
  - intros reviews log r HP HI HC.
    destruct (@parse_reviews_In cap soup room_url max_items reviews log r HP HI)
      as (c & _ & HS).
    apply parse_single_review_inv in HS.
    destruct HS as (dates & lang & HD & _ & HCa & HLd & _).
    rewrite HCa in HC. rewrite HLd.
    unfold ReviewParser._extract_dates in HD.
    destruct (ReviewParser.find_date_text c) as [t|].
    + destruct (dateparser_parse t) as [[]|dt]; try discriminate;
        injection HD as <-; simpl in *; congruence.
    + injection HD as <-. simpl in HC. congruence.
  - intros container date_text exc HF HP HE.
    assert (HD : ReviewParser._extract_dates container = inr (None, Some date_text)).
    { unfold ReviewParser._extract_dates. rewrite HF, HP.
      destruct HE as [->|[->| ->]]; reflexivity. }
    split; [exact HD|].
    intros r HS. apply parse_single_review_inv in HS.
    destruct HS as (dates & lang & HD' & _ & HCa & HLd & _).
    rewrite HD in HD'. injection HD' as <-. auto.
  - eexists. split; [vm_compute; reflexivity|]. split; reflexivity.
Qed.

Lemma created_at_implies_localized_date_witness :
  exists reviews log,
    ReviewParser.parse_reviews page_abc room None = (inr reviews, log) /\
    length reviews = 2 /\
    Forall (fun r => ReviewParser.createdAt r <> None ->
                     ReviewParser.localizedDate r <> None) reviews.
Proof.
  eexists; eexists. split; [apply parse_reviews_eq|].
  split; [vm_compute; reflexivity|].
  apply Forall_forall. intros r HI.
  eapply (proj1 (@created_at_implies_localized_date sample_capabilities
                   page_abc room None)).
  - apply parse_reviews_eq.
  - exact HI.
Defined.

(** ** The printed timestamp *)

Lemma decimal_rev_length d :
  forall fuel n, (n < 10 ^ N.of_nat d)%N -> 1 <= d -> length (decimal_rev fuel n) <= d.
Proof.
  induction d as [|d IH]; intros fuel n Hn Hd; [lia|].
  destruct fuel as [|fuel]; cbn [decimal_rev length]; [lia|].
  destruct (n / 10 =? 0)%N eqn:E; cbn [length]; [lia|].
  apply N.eqb_neq in E.
  assert (Hq : (n / 10 < 10 ^ N.of_nat d)%N).
  { apply N.Div0.div_lt_upper_bound.
    rewrite Nat2N.inj_succ, N.pow_succ_r' in Hn. exact Hn. }
  destruct d as [|d'].
  - change (10 ^ N.of_nat 0)%N with 1%N in Hq.
    exfalso. apply E. apply N.lt_1_r. exact Hq.
  - specialize (IH fuel (n / 10)%N Hq ltac:(clear; lia)). clear - IH. lia.
Qed.

Lemma zfill_decimal_length w n :
  (n < 10 ^ N.of_nat w)%N -> 1 <= w -> length (zfill w (decimal n)) = w.
Proof.
  intros Hn Hw. unfold zfill, decimal.
  rewrite length_app, repeat_length, length_rev.
  pose proof (@decimal_rev_length w (S (N.size_nat n)) n Hn Hw). lia.
Qed.

Lemma valid_datetime_bounds dt :
  valid_datetime dt = true ->
  (year dt < 10 ^ 4 /\ month dt < 10 ^ 2 /\ day dt < 10 ^ 2 /\ hour dt < 10 ^ 2 /\
   minute dt < 10 ^ 2 /\ second dt < 10 ^ 2 /\ microsecond dt < 10 ^ 6 /\
   1 <= month dt <= 12)%N.
Proof.
  unfold valid_datetime. intros H.
  repeat (apply andb_prop in H; destruct H as [H ?]).
  repeat match goal with H : (_ <=? _)%N = true |- _ => apply N.leb_le in H end.
  change (10 ^ 4)%N with 10000%N. change (10 ^ 2)%N with 100%N.
  change (10 ^ 6)%N with 1000000%N. lia.
Qed.


Lemma iso_fraction_length dt :
  valid_datetime dt = true -> microsecond dt <> 0%N -> length (iso_fraction dt) = 7.
Proof.
  intros V Hne. apply valid_datetime_bounds in V.
  destruct V as (_ & _ & _ & _ & _ & _ & Hus & _).
  unfold iso_fraction. apply N.eqb_neq in Hne. rewrite Hne.
  rewrite length_app, (@zfill_decimal_length 6) by (assumption || lia). reflexivity.
Qed.






(** ** The host response *)





Section ResponsePattern.

Import Re ReSpec.

Lemma run_seq_inv fl r1 r2 p c c' :
  run fl (Seq r1 r2) p c c' ->
  exists p1 p2 c1, p = p1 ++ p2 /\ run fl r1 p1 c c1 /\ run fl r2 p2 c1 c'.
Proof.
  intros R. inversion R; subst. eauto 6.
Qed.

Lemma run_group_inv fl n r p c c' :
  run fl (Group n r) p c c' ->
  exists c1, c' = (n, p) :: c1 /\ run fl r p c c1.
Proof.
  intros R. inversion R; subst. eauto.
Qed.


End ResponsePattern.





(** ** Review photos *)

Section Photos.

Import ReviewParser.

Lemma eqb_true_iff a b : PyStr.eqb a b = true <-> a = b.
Proof.
  unfold PyStr.eqb. destruct (list_eq_dec N.eq_dec a b); split; congruence.
Qed.

Lemma existsb_eqb_In u photos :
  existsb (PyStr.eqb u) photos = true <-> In u photos.
Proof.
  rewrite existsb_exists. split.
  - intros (x & I & E). apply eqb_true_iff in E. subst. exact I.
  - intros I. exists u. split; [exact I|]. apply eqb_true_iff. reflexivity.
Qed.

Lemma list_last_cases {A} (l : list A) : l = [] \/ exists l' a, l = l' ++ [a].
Proof.
  induction l as [|x l IH] using rev_ind; [left; reflexivity|].
  right. exists l, x. reflexivity.
Qed.

Lemma split_snoc {A} (p1 p2 l : list A) u x :
  p1 ++ u :: p2 = l ++ [x] ->
  (p2 = [] /\ p1 = l /\ u = x) \/ (exists p2', p2 = p2' ++ [x] /\ l = p1 ++ u :: p2').
Proof.
  intros H. destruct (list_last_cases p2) as [->|(p2' & a & ->)].
  - apply app_inj_tail in H. left. destruct H. auto.
  - right. exists p2'.
    change (p1 ++ u :: p2' ++ [a]) with (p1 ++ (u :: p2') ++ [a]) in H.
    rewrite app_assoc in H. apply app_inj_tail in H. destruct H as [H ->].
    split; [reflexivity|]. symmetry. exact H.
Qed.

(** What the de-duplicating loop has collected after the candidates
    [cands]: no URL twice; exactly the non-empty URLs met; each one at the
    place of its first occurrence. *)
Definition collected (cands : list (option str)) (photos : list str) : Prop :=
  NoDup photos /\
  (forall u, In u photos <-> u <> [] /\ In (Some u) cands) /\
  (forall p1 u p2,
      photos = p1 ++ u :: p2 ->
      exists c1 c2,
        cands = c1 ++ Some u :: c2 /\ ~ In (Some u) c1 /\
        (forall v, In v p1 <-> v <> [] /\ In (Some v) c1)).

Lemma collected_skip cands photos x :
  collected cands photos ->
  (forall u, x = Some u -> u <> [] -> In u photos) ->
  collected (cands ++ [x]) photos.
Proof.
  intros (ND & M & O) Hx. split; [exact ND|]. split.
  - intros u. rewrite M, in_app_iff. split.
    + intros [Hu I]. auto.
    + intros [Hu [I|[E|[]]]]; [auto|].
      split; [exact Hu|]. apply M. apply Hx; auto.
  - intros p1 u p2 E. destruct (O p1 u p2 E) as (c1 & c2 & -> & N1 & V).
    exists c1, (c2 ++ [x]). rewrite <- app_assoc. auto.
Qed.

Lemma collected_add cands photos u :
  collected cands photos -> u <> [] -> ~ In u photos ->
  collected (cands ++ [Some u]) (photos ++ [u]).
Proof.
  intros (ND & M & O) Hu Hn. split; [|split].
  - apply NoDup_rev in ND. rewrite <- (rev_involutive (photos ++ [u])).
    apply NoDup_rev. rewrite rev_app_distr. simpl. constructor; [|exact ND].
    rewrite <- in_rev. exact Hn.
  - intros v. rewrite !in_app_iff, M. split.
    + intros [[Hv I]|[<-|[]]]; auto. split; [exact Hu|]. right. left. reflexivity.
    + intros [Hv [I|[E|[]]]]; [auto|]. injection E as <-. right. left. reflexivity.
  - intros p1 v p2 E. symmetry in E. apply split_snoc in E.
    destruct E as [(-> & -> & ->)|(p2' & -> & E)].
    + exists cands, []. split; [reflexivity|]. split.
      * intros I. apply Hn. apply M. auto.
      * exact M.
    + destruct (O p1 v p2' E) as (c1 & c2 & -> & N1 & V).
      exists c1, (c2 ++ [Some u]). rewrite <- app_assoc. auto.
Qed.

Lemma fold_add_photo_collected cands :
  collected cands (fold_left add_photo cands []).
Proof.
  induction cands as [|x cands IH] using rev_ind.
  - simpl. split; [constructor|]. split.
    + intros u. simpl. tauto.
    + intros p1 u p2 E. destruct p1; discriminate.
  - rewrite fold_left_app. cbn [fold_left].
    set (photos := fold_left add_photo cands []) in *.
    unfold add_photo. destruct x as [[|a u]|].
    + apply collected_skip; [exact IH|]. intros u E Hu. congruence.
    + destruct (existsb (PyStr.eqb (a :: u)) photos) eqn:E.
      * apply collected_skip; [exact IH|]. intros v Ev _. injection Ev as <-.
        apply existsb_eqb_In. exact E.
      * apply collected_add; [exact IH|discriminate|].
        intros I. apply existsb_eqb_In in I. congruence.
    + apply collected_skip; [exact IH|]. intros u E. discriminate.
Qed.

Lemma extract_review_photos_eq container :
  _extract_review_photos container =
  fold_left add_photo (photo_candidates container) [].
Proof.
  unfold _extract_review_photos, photo_candidates.
  destruct (fold_left add_photo (marked_photo_urls container) []) eqn:E;
    [reflexivity|]. symmetry. exact E.
Qed.

End Photos.

(** C8: for every container, [reviewPhotos] holds no URL twice; it holds
    exactly the non-empty URLs among the candidates the extractor goes
    through; and each URL stands at the place of its first occurrence: the
    photos before it are exactly the URLs met before that first
    occurrence.  A container that repeats a source keeps the first
    occurrence only. *)
Theorem review_photos_unique_in_first_occurrence_order :
  forall container,
    let photos := ReviewParser._extract_review_photos container in
    let cands := photo_candidates container in
    NoDup photos /\
    (forall u, In u photos <-> u <> [] /\ In (Some u) cands) /\
    (forall p1 u p2,
        photos = p1 ++ u :: p2 ->
        exists c1 c2,
          cands = c1 ++ Some u :: c2 /\ ~ In (Some u) c1 /\
          (forall v, In v p1 <-> v <> [] /\ In (Some v) c1)) /\
    ReviewParser._extract_review_photos container_repeated_photos =
      [L "p1.jpg"; L "p2.jpg"].
Proof.
  intros container photos cands.
  pose proof (fold_add_photo_collected cands) as (ND & M & O).
  unfold photos. rewrite extract_review_photos_eq. fold cands.
  split; [exact ND|]. split; [exact M|]. split; [exact O|].
  vm_compute. reflexivity.
Qed.

(** ** The superhost flag *)

Lemma startswith_app n a b :
  startswith n a = true -> startswith n (a ++ b) = true.
Proof.
  revert a. induction n as [|x n IH]; intros a H; [reflexivity|].
  destruct a as [|y a]; simpl in *; [discriminate|].
  apply andb_prop in H. destruct H as [H1 H2]. rewrite H1. simpl. auto.
Qed.

Lemma contains_unfold n h :
  contains n h =
  startswith n h || match h with [] => false | _ :: h' => contains n h' end.
Proof. destruct h; reflexivity. Qed.

Lemma contains_app_l n a b :
  contains n a = true -> contains n (a ++ b) = true.
Proof.
  induction a as [|y a IH]; intros H; rewrite contains_unfold in H.
  - rewrite orb_false_r in H. rewrite contains_unfold.
    rewrite (startswith_app _ _ b H). reflexivity.
  - apply orb_prop in H. cbn [app]. rewrite contains_unfold.
    destruct H as [H|H].
    + change (y :: a ++ b) with ((y :: a) ++ b).
      rewrite (startswith_app _ _ b H). reflexivity.
    + rewrite (IH H). apply orb_true_r.
Qed.

Lemma contains_app_r n a b :
  contains n b = true -> contains n (a ++ b) = true.
Proof.
  intros H. induction a as [|y a IH]; [exact H|].
  cbn [app]. rewrite contains_unfold, IH. apply orb_true_r.
Qed.

Lemma contains_join n sep parts p :
  In p parts -> contains n p = true -> contains n (join sep parts) = true.
Proof.
  induction parts as [|q parts IH]; intros I H; [destruct I|].
  destruct parts as [|q' parts'].
  - destruct I as [->|[]]. exact H.
  - change (join sep (q :: q' :: parts')) with (q ++ sep ++ join sep (q' :: parts')).
    destruct I as [->|I].
    + apply contains_app_l, H.
    + apply contains_app_r, contains_app_r, IH; auto.
Qed.

Lemma lower_join sep parts :
  lower (join sep parts) = join (lower sep) (List.map lower parts).
Proof.
  induction parts as [|q parts IH]; [reflexivity|].
  destruct parts as [|q' parts'];  [reflexivity|].
  change (join sep (q :: q' :: parts')) with (q ++ sep ++ join sep (q' :: parts')).
  unfold lower at 1. rewrite !map_app. fold (lower q) (lower sep).
  fold (lower (join sep (q' :: parts'))). rewrite IH. reflexivity.
Qed.

(** C10: for every container, the reviewer's and the host's
    [isSuperhost] are equal, and both say whether ["superhost"] occurs,
    in any letter case, in the container's full visible text (its stripped
    strings joined by spaces); the two detectors are the same function of
    the container.  So the flags agree in every assembled record, and a
    text node that mentions the word anywhere in the container sets both. *)
Theorem superhost_flags_agree :
  forall container,
    ReviewerParser.isSuperhost (ReviewerParser.parse_reviewer container) =
      HostParser.isSuperhost (HostParser.parse_host container) /\
    ReviewerParser._detect_superhost_flag container =
      HostParser._detect_superhost_flag container /\
    HostParser.isSuperhost (HostParser.parse_host container) =
      contains (L "superhost") (lower (get_text (L " ") container)) /\
    (forall (cap : Capabilities) room_url r,
        ReviewParser._parse_single_review container room_url = inr r ->
        ReviewerParser.isSuperhost (ReviewParser.reviewer r) =
          HostParser.isSuperhost (ReviewParser.host r)) /\
    (forall s,
        In s (stripped_strings container) ->
        contains (L "superhost") (lower s) = true ->
        ReviewerParser.isSuperhost (ReviewerParser.parse_reviewer container) = true /\
        HostParser.isSuperhost (HostParser.parse_host container) = true).
Proof.
  intros c.
  assert (E : ReviewerParser._detect_superhost_flag c =
              HostParser._detect_superhost_flag c).
  { unfold ReviewerParser._detect_superhost_flag, HostParser._detect_superhost_flag.
    destruct (contains _ _); reflexivity. }
  split; [exact E|]. split; [exact E|]. split; [reflexivity|]. split.
  - intros cap room_url r H. apply parse_single_review_inv in H.
    destruct H as (dates & lang & _ & _ & _ & _ & _ & _ & _ & _ & _ & _ & Hr & Hh).
    rewrite Hr, Hh. exact E.
  - intros s I H.
    assert (F : HostParser._detect_superhost_flag c = true).
    { unfold HostParser._detect_superhost_flag, get_text.
      rewrite lower_join. apply contains_join with (p := lower s); [|exact H].
      apply in_map. exact I. }
    split; [|exact F].
    change (ReviewerParser._detect_superhost_flag c = true). rewrite E. exact F.
Qed.

(* ================================================================== *)
(** * Further properties of the extractors and of their callers *)
(* ================================================================== *)

(** ** Identifiers scraped from attributes and links *)

Section DigitGroups.

Import Re ReSpec.

Lemma run_Lit_of cs p c c' :
  run no_flags (Lit_of cs) p c c' -> p = cs /\ c' = c.
Proof.
  revert p c c'. induction cs as [|x cs IH]; intros p c c' R.
  - inversion R; subst. auto.
  - destruct cs as [|y cs].
    + inversion R as [|? ? ? E| | | | | | | | | | | | |]; subst.
      apply N.eqb_eq in E. subst. auto.
    + change (Lit_of (x :: y :: cs)) with (Seq (Chr x) (Lit_of (y :: cs))) in R.
      apply run_seq_inv in R. destruct R as (p1 & p2 & c1 & -> & R1 & R2).
      apply IH in R2. destruct R2 as [-> ->].
      inversion R1 as [|? ? ? E| | | | | | | | | | | | |]; subst.
      apply N.eqb_eq in E. subst. auto.
Qed.

Lemma run_digits p c c' :
  run no_flags (Plus Digit) p c c' ->
  p <> [] /\ Forall (fun x => isdigit x = true) p /\ c' = c.
Proof.
  intros R. pose proof (run_allowed R) as F.
  pose proof (run_no_groups R eq_refl) as G.
  unfold Plus in R. apply run_seq_inv in R.
  destruct R as (p1 & p2 & c1 & -> & R1 & _).
  inversion R1; subst. split; [discriminate|]. split; [|reflexivity].
  eapply Forall_impl; [|exact F]. intros a Ha. unfold Plus in Ha. cbn [allowed] in Ha.
  destruct (isdigit a); [reflexivity|simpl in Ha; discriminate].
Qed.

(** A match of [<literal><optional separator>(\d+)]: the subject holds
    the literal, the separator when there is one, and the captured
    digits, in a row. *)
Lemma literal_digits_group lit seps s m :
  search no_flags (Seq (Lit lit) (Seq (Opt (OneOf seps)) (Group 1 (Plus Digit)))) s = Some m ->
  exists pre sep id suf,
    s = pre ++ L lit ++ sep ++ id ++ suf /\
    (sep = [] \/ exists x, In x seps /\ sep = [x]) /\
    group 1 m = Some id /\ id <> [] /\ Forall (fun x => isdigit x = true) id.
Proof.
  intros H. apply search_sound in H.
  destruct H as (pre & p & suf & -> & R & _ & _).
  apply run_seq_inv in R. destruct R as (p1 & q1 & c1 & -> & R1 & R).
  apply run_Lit_of in R1. destruct R1 as [-> ->].
  apply run_seq_inv in R. destruct R as (p2 & q2 & c2 & -> & R2 & R).
  apply run_group_inv in R. destruct R as (c3 & HG & R).
  apply run_digits in R. destruct R as (Hne & Hd & ->).
  assert (Hsep : (p2 = [] \/ exists x, In x seps /\ p2 = [x]) /\ c2 = []).
  { inversion R2 as [| | | | | | | |? ? ? ? R3| | | | | |]; subst.
    - inversion R3 as [| | | | |? x ? E| | | | | | | | |]; subst.
      split; [|reflexivity]. right. exists x. split; [|reflexivity].
      apply existsb_exists in E. destruct E as (y & I & E).
      apply N.eqb_eq in E. subst. exact I.
    - auto. }
  destruct Hsep as [Hsep ->].
  exists pre, p2, q2, suf. unfold group. rewrite HG. simpl.
  rewrite <- !app_assoc. auto.
Qed.

End DigitGroups.

(** The attribute scan never returns the empty string. *)
Lemma review_id_scan_not_empty container :
  ReviewParser._extract_review_id_from_attributes container <> Some [].
Proof.
  intros H. unfold ReviewParser._extract_review_id_from_attributes in H.
  apply first_some_In in H. destruct H as ([attr v] & _ & H). simpl in H.
  destruct v as [value|l]; [|discriminate].
  destruct (Re.search Re.no_flags ReviewParser.re_review_id value) as [m|] eqn:S;
    [|discriminate].
  apply literal_digits_group in S.
  destruct S as (pre & sep & id' & suf & _ & _ & G & Hne & _).
  rewrite G in H. injection H as ->. contradiction Hne; reflexivity.
Qed.



Lemma or_else_not_empty x y :
  y <> Some [] -> or_else x y <> Some [].
Proof. intros H. destruct x as [[|a s]|]; simpl; auto. discriminate. Qed.

(** X2 ([_parse_single_review], the [reviewId] chain): in every assembled
    record [reviewId] is unset or non-empty; a non-empty
    [data-review-id] wins; failing that, a non-empty [id]; failing both,
    the result of the attribute scan. *)
Theorem review_id_priority :
  forall (cap : Capabilities) container room_url r,
    ReviewParser._parse_single_review container room_url = inr r ->
    ReviewParser.reviewId r <> Some [] /\
    (forall v, get_str container "data-review-id" = Some v -> v <> [] ->
               ReviewParser.reviewId r = Some v) /\
    (forall v, truthy_opt (get_str container "data-review-id") = false ->
               get_str container "id" = Some v -> v <> [] ->
               ReviewParser.reviewId r = Some v) /\
    (truthy_opt (get_str container "data-review-id") = false ->
     truthy_opt (get_str container "id") = false ->
     ReviewParser.reviewId r =
       ReviewParser._extract_review_id_from_attributes container).
Proof.
  intros cap c room_url r H.
  assert (E : ReviewParser.reviewId r =
              or_else (get_str c "data-review-id")
                      (or_else (get_str c "id")
                               (ReviewParser._extract_review_id_from_attributes c))).
  { unfold ReviewParser._parse_single_review, bind in H.
    destruct (ReviewParser._extract_dates c); [discriminate|].
    destruct (ReviewParser.detect_language _); [discriminate|].
    injection H as <-. reflexivity. }
  rewrite E. split; [|split; [|split]].
  - apply or_else_not_empty, or_else_not_empty. intros A.
    exact (review_id_scan_not_empty c A).
  - intros v -> Hv. destruct v; [congruence|reflexivity].
  - intros v H1 -> Hv.
    destruct (get_str c "data-review-id") as [[|a s]|]; try discriminate;
      destruct v; try congruence; reflexivity.
  - intros H1 H2.
    destruct (get_str c "data-review-id") as [[|a s]|]; try discriminate;
      destruct (get_str c "id") as [[|b t]|]; try discriminate; reflexivity.
Qed.

Lemma review_id_priority_witness :
  exists r,
    @ReviewParser._parse_single_review sample_capabilities review_a room = inr r /\
    ReviewParser.reviewId r = Some (L "a").
Proof.
  destruct (@ReviewParser._parse_single_review sample_capabilities review_a room)
    as [e|r] eqn:E; [vm_compute in E; discriminate|].
  exists r. split; [reflexivity|].
  apply (proj1 (proj2 (@review_id_priority sample_capabilities review_a room r E))).
  - vm_compute. reflexivity.
  - discriminate.
Defined.

(** ** The comment and its language *)

Lemma longest_fold {A} (f : A -> str) l :
  forall init,
    let r := fold_left (fun best x => if Nat.ltb (length best) (length (f x))
                                      then f x else best) l init in
    (r = init \/ exists x, In x l /\ r = f x) /\
    length init <= length r /\
    (forall x, In x l -> length (f x) <= length r).
Proof.
  induction l as [|a l IH]; intros init; cbn [fold_left].
  - split; [left; reflexivity|]. split; [lia|]. intros x [].
  - destruct (Nat.ltb (length init) (length (f a))) eqn:E.
    + apply Nat.ltb_lt in E.
      destruct (IH (f a)) as ([H|(x & I & H)] & L1 & L2).
      * split; [right; exists a; split; [left; reflexivity|exact H]|].
        split; [lia|]. intros x [<-|I]; auto.
      * split; [right; exists x; split; [right; exact I|exact H]|].
        split; [lia|]. intros y [<-|Iy]; auto.
    + apply Nat.ltb_ge in E.
      destruct (IH init) as ([H|(x & I & H)] & L1 & L2).
      * split; [left; exact H|]. split; [exact L1|].
        intros x [<-|I]; [lia|auto].
      * split; [right; exists x; split; [right; exact I|exact H]|].
        split; [exact L1|]. intros y [<-|Iy]; [lia|auto].
Qed.

(** The comment is never the empty string. *)
Lemma extract_comment_not_empty container :
  ReviewParser._extract_comment container <> Some [].
Proof.
  unfold ReviewParser._extract_comment.
  destruct (first_some _ ReviewParser.comment_candidates) as [t|] eqn:E.
  - apply first_some_In in E. destruct E as (sel & _ & E).
    destruct (select_one sel container); [|discriminate].
    destruct (get_text [] n) eqn:G; [discriminate|]. injection E as <-. discriminate.
  - destruct (fold_left _ (find_all ["span"] [] container) []); discriminate.
Qed.

(** X3 ([_extract_comment]): the comment is unset or non-empty.  The
    structural markers come first, in their order, and only the first
    match of each marker is looked at: the first marker whose first match
    has text gives the comment.  When no marker does, the comment is the
    text of a [span] of maximal text length (unset when every [span] is
    empty). *)
Theorem comment_markers_then_longest_span :
  forall container,
    ReviewParser._extract_comment container <> Some [] /\
    (forall pre sel post text,
        ReviewParser.comment_candidates = pre ++ sel :: post ->
        (forall s, In s pre -> marker_text container s = None) ->
        marker_text container sel = Some text ->
        ReviewParser._extract_comment container = Some text) /\
    ((forall s, In s ReviewParser.comment_candidates -> marker_text container s = None) ->
     (forall span, In span (find_all ["span"] [] container) ->
        match ReviewParser._extract_comment container with
        | Some text => length (get_text [] span) <= length text
        | None => get_text [] span = []
        end) /\
     (forall text, ReviewParser._extract_comment container = Some text ->
        exists span, In span (find_all ["span"] [] container) /\
                     text = get_text [] span)).
Proof.
  intros c.
  assert (M : forall l, first_some (fun sel =>
                match select_one sel c with
                | Some element => match get_text [] element with
                                  | [] => None
                                  | text => Some text
                                  end
                | None => None
                end) l = first_some (marker_text c) l) by reflexivity.
  unfold ReviewParser._extract_comment. rewrite M.
  pose proof (longest_fold (get_text []) (find_all ["span"] [] c) []) as LF.
  cbv zeta in LF. destruct LF as (HO & _ & HL).
  set (longest := fold_left _ (find_all ["span"] [] c) []) in *.
  split; [|split].
  - destruct (first_some (marker_text c) ReviewParser.comment_candidates)
      as [t|] eqn:E.
    + apply first_some_In in E. destruct E as (sel & _ & E).
      unfold marker_text in E. destruct (select_one sel c); [|discriminate].
      destruct (get_text [] n) eqn:G; [discriminate|]. injection E as <-. discriminate.
    + destruct longest; discriminate.
  - intros pre sel post text HC Hpre Hs.
    rewrite HC, first_some_app_skip by exact Hpre. simpl. rewrite Hs. reflexivity.
  - intros Hall.
    rewrite <- (app_nil_r ReviewParser.comment_candidates),
      first_some_app_skip by exact Hall.
    simpl. split.
    + intros span I. specialize (HL span I).
      destruct longest; [simpl in HL|exact HL].
      destruct (get_text [] span); [reflexivity|simpl in HL; lia].
    + intros text E. destruct longest as [|a l] eqn:EL; [discriminate|].
      injection E as <-. destruct HO as [HO|(x & I & HO)]; [discriminate|].
      exists x. auto.
Qed.

Lemma comment_markers_then_longest_span_witness :
  Forall (fun s => marker_text container_spans s = None) ReviewParser.comment_candidates /\
  ReviewParser._extract_comment container_spans = Some (L "Very nice") /\
  Forall (fun span => length (get_text [] span) <= length (L "Very nice"))
         (find_all ["span"] [] container_spans).
Proof.
  assert (A : Forall (fun s => marker_text container_spans s = None)
                     ReviewParser.comment_candidates).
  { repeat constructor; vm_compute; reflexivity. }
  assert (E : ReviewParser._extract_comment container_spans = Some (L "Very nice"))
    by (vm_compute; reflexivity).
  split; [exact A|]. split; [exact E|].
  apply Forall_forall. intros span I.
  pose proof (proj1 (proj2 (proj2 (comment_markers_then_longest_span container_spans))
                       (proj1 (Forall_forall _ _) A)) span I) as H.
  rewrite E in H. exact H.
Defined.

Section Assembly.

Import ReviewParser.

Context {cap : Capabilities}.

(** X4 ([_parse_single_review], language): in an assembled record the
    language is set only for a set (hence non-empty) comment on which the
    detector returned; a record without comment has no language; and when
    the detector raises [LangDetectException] the record is still
    assembled, with the language unset. *)
Theorem language_follows_comment :
  forall container room_url r,
    _parse_single_review container room_url = inr r ->
    (forall code, language r = Some code ->
       exists text, comment r = Some text /\ text <> [] /\ detect text = inr code) /\
    (comment r = None -> language r = None) /\
    (forall text, comment r = Some text -> detect text = inl LangDetectException ->
       language r = None).
Proof.
  intros c room_url r H. apply parse_single_review_inv in H.
  destruct H as (dates & lang & _ & HL & _ & _ & Hlang & _ & _ & Hc & _).
  rewrite Hlang, Hc. unfold detect_language in HL.
  destruct (_extract_comment c) as [[|a t]|] eqn:E.
  - injection HL as <-. repeat split; try discriminate; reflexivity.
  - destruct (detect (a :: t)) as [e|code] eqn:D.
    + destruct e; try discriminate. injection HL as <-.
      repeat split; try discriminate; reflexivity.
    + injection HL as <-. split; [|split].
      * intros code' Hc'. injection Hc' as <-. exists (a :: t).
        repeat split; [discriminate|exact D].
      * discriminate.
      * intros text Ht D'. injection Ht as <-. congruence.
  - injection HL as <-. repeat split; try discriminate; reflexivity.
Qed.

(** X5 ([_parse_single_review], what can fail): the assembly of a
    container raises exactly when the date parser raises, on the date
    text found, something other than [ValueError], [TypeError] and
    [OverflowError], or the detector raises, on the comment, something
    other than [LangDetectException]; nothing in the extractors
    themselves raises.  The error of the date parser comes first. *)
Theorem assembly_fails_only_through_the_environment :
  forall container room_url,
    ((exists exc, _parse_single_review container room_url = inl exc) <->
     (exists t exc, find_date_text container = Some t /\
                    dateparser_parse t = inl exc /\
                    exc <> ValueError /\ exc <> TypeError /\ exc <> OverflowError) \/
     (exists text exc, _extract_comment container = Some text /\
                       detect text = inl exc /\ exc <> LangDetectException)) /\
    (forall t exc, find_date_text container = Some t ->
                   dateparser_parse t = inl exc ->
                   exc <> ValueError -> exc <> TypeError -> exc <> OverflowError ->
                   _parse_single_review container room_url = inl exc).
Proof.
  intros c room_url.
  assert (P2 : forall t exc, find_date_text c = Some t ->
                   dateparser_parse t = inl exc ->
                   exc <> ValueError -> exc <> TypeError -> exc <> OverflowError ->
                   _parse_single_review c room_url = inl exc).
  { intros t exc HF HP N1 N2 N3.
    unfold _parse_single_review, bind, _extract_dates. rewrite HF, HP.
    destruct exc; try congruence; reflexivity. }
  split; [|exact P2]. split.
  - intros (exc & H). unfold _parse_single_review, bind in H.
    destruct (_extract_dates c) as [e|dates] eqn:ED.
    + left. unfold _extract_dates in ED.
      destruct (find_date_text c) as [t|]; [|discriminate].
      destruct (dateparser_parse t) as [e'|dt] eqn:EP; [|discriminate].
      exists t, e'. split; [reflexivity|]. split; [exact EP|].
      destruct e'; try discriminate; repeat split; discriminate.
    + right. destruct (detect_language (_extract_comment c)) as [e|l] eqn:EL;
        [|discriminate].
      unfold detect_language in EL.
      destruct (_extract_comment c) as [[|a t]|]; try discriminate.
      destruct (detect (a :: t)) as [e'|code] eqn:D; [|discriminate].
      exists (a :: t), e'. split; [reflexivity|]. split; [exact D|].
      destruct e'; try discriminate.
  - intros [(t & exc & HF & HP & N1 & N2 & N3)|(text & exc & HC & HD & N)].
    + exists exc. apply (P2 t); auto.
    + unfold _parse_single_review, bind.
      destruct (_extract_dates c) as [e|dates]; [exists e; reflexivity|].
      exists exc. unfold detect_language. rewrite HC.
      destruct text as [|a t].
      * exfalso. exact (extract_comment_not_empty c HC).
      * rewrite HD. destruct exc; try congruence; reflexivity.
Qed.

(** X6 ([parse_reviews], bounds): the call returns at most one record per
    container and never more than [max_items] records; a maximum of zero
    or less returns nothing; every record carries the caller's
    [room_url]; and without a maximum every container is either returned
    or logged as failed. *)
Theorem parse_reviews_bounds :
  forall soup room_url max_items,
    exists reviews log,
      parse_reviews soup room_url max_items = (inr reviews, log) /\
      length reviews <= length (fst (_find_review_containers soup)) /\
      (forall m, max_items = Some m -> (Z.of_nat (length reviews) <= Z.max 0 m)%Z) /\
      (forall m, max_items = Some m -> (m <= 0)%Z -> reviews = []) /\
      Forall (fun r => roomUrl r = room_url) reviews /\
      (max_items = None ->
       length reviews + length (failures room_url (fst (_find_review_containers soup)))
         = length (fst (_find_review_containers soup)) /\
       log = snd (_find_review_containers soup) ++
             List.map Exception_failed_to_parse
                      (failures room_url (fst (_find_review_containers soup)))).
Proof.
  intros soup room_url max_items. rewrite parse_reviews_eq.
  set (cs := fst (_find_review_containers soup)).
  eexists; eexists. split; [reflexivity|].
  assert (SF : forall l, length (successes room_url l) + length (failures room_url l)
                         = length l).
  { induction l as [|c l IH]; [reflexivity|].
    rewrite successes_cons, failures_cons.
    destruct (_parse_single_review c room_url); simpl; lia. }
  assert (TL : length (take_max max_items (successes room_url cs))
               <= length (successes room_url cs)).
  { unfold take_max. destruct max_items; [|lia].
    rewrite length_firstn. lia. }
  split; [specialize (SF cs); lia|]. split; [|split; [|split]].
  - intros m ->. unfold take_max. rewrite length_firstn. lia.
  - intros m -> Hm. unfold take_max.
    replace (Z.to_nat m) with 0 by lia. reflexivity.
  - apply Forall_forall. intros r I. apply take_max_In in I.
    apply successes_In in I. destruct I as (c & _ & H).
    apply parse_single_review_inv in H.
    destruct H as (dates & lang & _ & _ & _ & _ & _ & Hu & _). exact Hu.
  - intros ->. split.
    + unfold take_max. apply SF.
    + apply parse_loop_log_unbounded.
Qed.

End Assembly.

Lemma language_follows_comment_witness :
  exists r,
    @ReviewParser._parse_single_review sample_capabilities review_a room = inr r /\
    ReviewParser.language r = Some (L "en") /\
    exists text, ReviewParser.comment r = Some text /\ text <> [] /\
                 sample_detect text = inr (L "en").
Proof.
  destruct (@ReviewParser._parse_single_review sample_capabilities review_a room)
    as [e|r] eqn:E; [vm_compute in E; discriminate|].
  assert (HL : ReviewParser.language r = Some (L "en")).
  { vm_compute in E. injection E as <-. reflexivity. }
  exists r. split; [reflexivity|]. split; [exact HL|].
  exact (proj1 (@language_follows_comment sample_capabilities review_a room r E)
               (L "en") HL).
Defined.

(** ** The date text *)

(** X7 ([_extract_dates], where the date text comes from): the text
    handed to the date parser is never empty.  A non-empty [datetime]
    attribute of the first [time] element wins; failing that, the
    non-empty text of that element; the [span] fallback is consulted only
    when the [time] element gives nothing.  With no [time] element and no
    [span] whose string attributes mention ["date"], there is no date text
    and both date fields are unset. *)
Theorem date_text_sources :
  forall container,
    ReviewParser.find_date_text container <> Some [] /\
    (forall te d,
        find ["time"] [] container = Some te ->
        get_str te "datetime" = Some d -> d <> [] ->
        ReviewParser.find_date_text container = Some d) /\
    (forall te,
        find ["time"] [] container = Some te ->
        truthy_opt (get_str te "datetime") = false ->
        get_text [] te <> [] ->
        ReviewParser.find_date_text container = Some (get_text [] te)) /\
    (find ["time"] [] container = None ->
     (forall span, In span (find_all ["span"] [] container) ->
                   mentions_date span = false) ->
     ReviewParser.find_date_text container = None /\
     forall cap : Capabilities,
       ReviewParser._extract_dates container = inr (None, None)).
Proof.
  intros c.
  assert (EQ : ReviewParser.find_date_text c =
               let date_text :=
                 match find ["time"] [] c with
                 | Some te => or_else (get_str te "datetime") (Some (get_text [] te))
                 | None => None
                 end in
               let date_text :=
                 if negb (truthy_opt date_text) then
                   match List.find mentions_date (find_all ["span"] [] c) with
                   | Some span => Some (get_text [] span)
                   | None => date_text
                   end
                 else date_text in
               if negb (truthy_opt date_text) then None else date_text)
    by reflexivity.
  cbv zeta in EQ.
  split; [|split; [|split]].
  - rewrite EQ. destruct (find ["time"] [] c) as [te|].
    + destruct (get_str te "datetime") as [[|a d]|]; simpl.
      * destruct (get_text [] te) as [|b t]; simpl.
        -- destruct (List.find mentions_date _); [|discriminate].
           destruct (get_text [] n); simpl; discriminate.
        -- discriminate.
      * discriminate.
      * destruct (get_text [] te) as [|b t]; simpl.
        -- destruct (List.find mentions_date _); [|discriminate].
           destruct (get_text [] n); simpl; discriminate.
        -- discriminate.
    + simpl. destruct (List.find mentions_date _); [|discriminate].
      destruct (get_text [] n); simpl; discriminate.
  - intros te d HT HD Hd. rewrite EQ, HT, HD. destruct d; [congruence|reflexivity].
  - intros te HT Hd Ht. rewrite EQ, HT.
    destruct (get_str te "datetime") as [[|a d]|]; try discriminate;
      simpl; destruct (get_text [] te); try congruence; reflexivity.
  - intros HT Hs.
    assert (F : List.find mentions_date (find_all ["span"] [] c) = None).
    { destruct (List.find mentions_date _) as [sp|] eqn:E; [|reflexivity].
      apply find_some in E. destruct E as [I E]. rewrite (Hs sp I) in E. discriminate. }
    assert (E : ReviewParser.find_date_text c = None).
    { rewrite EQ, HT, F. reflexivity. }
    split; [exact E|].
    intros cap. unfold ReviewParser._extract_dates. rewrite E. reflexivity.
Qed.

(** ** The host response: what the pattern captures *)

Section GreedyTail.

Import Re ReSpec.

Variable fl : flags.
Variable n0 : nat.
Hypothesis fl_dotall : dotall fl = true.




End GreedyTail.

Section ResponseCapture.

Import Re ReSpec.





End ResponseCapture.

(** ** Stripped text *)












(** ** The reviewer and the host *)




Lemma find_ext_eq {A} (p q : A -> bool) l :
  (forall a, p a = q a) -> List.find p l = List.find q l.
Proof.
  intros E. induction l as [|a l IH]; simpl; [reflexivity|].
  rewrite E, IH. reflexivity.
Qed.

Lemma find_contains n h :
  (exists i, PyStr.find n h = Some i) <-> contains n h = true.
Proof.
  induction h as [|x h IH].
  - simpl. destruct (startswith n []); simpl; split; eauto; try discriminate.
    intros (i & H). discriminate.
  - cbn [PyStr.find contains]. destruct (startswith n (x :: h)); simpl.
    + split; eauto.
    + rewrite <- IH. split.
      * intros (i & H). destruct (PyStr.find n h); [eauto|discriminate].
      * intros (i & H). rewrite H. simpl. eauto.
Qed.

(** X10 ([_find_host_link], who the host is): a profile link inside a
    host-response section wins.  Without one, the host is looked for in
    the whole container only when its text holds ["response from"] (any
    letter case), and the link then taken is the reviewer's own profile
    link, so that host and reviewer get the same path and id.  With no
    such section link and no such phrase the host's id, first name and
    path stay unset. *)
Theorem host_link_section_then_phrase :
  forall container,
    let h := HostParser.parse_host container in
    let phrase := contains (L "response from") (lower (get_text (L " ") container)) in
    (forall link, host_section_link container = Some link ->
                  HostParser._find_host_link container = Some link /\
                  HostParser.profilePath h = get_str link "href") /\
    (host_section_link container = None -> phrase = true ->
     HostParser._find_host_link container = ReviewerParser._find_profile_link container /\
     HostParser.profilePath h =
       ReviewerParser.profilePath (ReviewerParser.parse_reviewer container) /\
     HostParser.id h = ReviewerParser.id (ReviewerParser.parse_reviewer container)) /\
    (host_section_link container = None -> phrase = false ->
     HostParser._find_host_link container = None /\
     HostParser.profilePath h = None /\ HostParser.id h = None /\
     HostParser.firstName h = None).
Proof.
  intros c h phrase.
  assert (FE : HostParser._find_host_link c =
               match host_section_link c with
               | Some link => Some link
               | None =>
                   List.find
                     (fun link =>
                        HostParser.is_profile_link link &&
                        match PyStr.find (L "response from") (lower (get_text (L " ") c)) with
                        | Some _ => true
                        | None => false
                        end)
                     (find_all ["a"] [("href", Present)] c)
               end) by reflexivity.
  split; [|split].
  - intros link HS. assert (E : HostParser._find_host_link c = Some link)
      by (rewrite FE, HS; reflexivity).
    split; [exact E|]. unfold h, HostParser.parse_host.
    cbn [HostParser.profilePath]. rewrite E. reflexivity.
  - intros HS HP.
    assert (E : HostParser._find_host_link c = ReviewerParser._find_profile_link c).
    { rewrite FE, HS.
      destruct (proj2 (find_contains (L "response from") (lower (get_text (L " ") c))) HP)
        as (i & ->).
      unfold ReviewerParser._find_profile_link.
      apply find_ext_eq. intros a. unfold HostParser.is_profile_link.
      rewrite andb_true_r. reflexivity. }
    split; [exact E|].
    unfold h, HostParser.parse_host, ReviewerParser.parse_reviewer.
    cbn [HostParser.profilePath HostParser.id ReviewerParser.profilePath ReviewerParser.id].
    rewrite E. split; reflexivity.
  - intros HS HP.
    assert (E : HostParser._find_host_link c = None).
    { rewrite FE, HS.
      destruct (PyStr.find (L "response from") (lower (get_text (L " ") c))) as [i|] eqn:F.
      - assert (contains (L "response from") (lower (get_text (L " ") c)) = true)
          by (apply find_contains; eauto).
        unfold phrase in HP. congruence.
      - destruct (List.find _ _) as [l|] eqn:G; [|reflexivity].
        apply find_some in G. destruct G as [_ G]. rewrite andb_false_r in G. discriminate. }
    split; [exact E|]. unfold h, HostParser.parse_host.
    cbn [HostParser.profilePath HostParser.id HostParser.firstName].
    rewrite E. auto.
Qed.

(** ** The host's first name: the prefix that is removed *)

Section ResponsePrefix.

Import Re ReSpec.

Variable fl : flags.
Variable n0 : nat.
Hypothesis fl_icase : ignorecase fl = true.





End ResponsePrefix.





(** ** Pictures and the reviewer's location *)




Lemma nonempty_src_inv img src :
  nonempty_src img = Some src -> get_str img "src" = Some src /\ src <> [].
Proof.
  unfold nonempty_src. destruct (get_str img "src") as [[|x s]|]; try discriminate.
  intros H. injection H as <-. split; [reflexivity|discriminate].
Qed.





(** X13 ([_find_host_picture]): the host's picture is the non-empty
    [src] of an image that lies inside a host-response section; an image
    elsewhere in the container is never taken, and without such a
    section there is no picture. *)
Theorem host_picture_only_from_response_sections :
  forall container,
    let picture := HostParser.pictureUrl (HostParser.parse_host container) in
    (forall src,
        picture = Some src ->
        src <> [] /\
        exists sec img,
          In (Some sec) (HostParser.host_sections container) /\
          In img (find_all ["img"] [] sec) /\ get_str img "src" = Some src) /\
    (HostParser.host_sections container = [None; None] -> picture = None).
Proof.
  intros c picture.
  assert (PE : HostParser._find_host_picture c =
               first_some (fun section =>
                             match section with
                             | None => None
                             | Some sec => first_some nonempty_src (find_all ["img"] [] sec)
                             end)
                          (HostParser.host_sections c)) by reflexivity.
  assert (INV : forall src, HostParser._find_host_picture c = Some src ->
                            src <> [] /\
                            exists sec img,
                              In (Some sec) (HostParser.host_sections c) /\
                              In img (find_all ["img"] [] sec) /\
                              get_str img "src" = Some src).
  { intros src H. rewrite PE in H. apply first_some_In in H.
    destruct H as ([sec|] & I & H); [|discriminate].
    apply first_some_In in H. destruct H as (img & I' & H).
    apply nonempty_src_inv in H. destruct H. split; [assumption|].
    exists sec, img. auto. }
  unfold picture, HostParser.parse_host. cbn [HostParser.pictureUrl].
  split.
  - intros src H.
    destruct (HostParser._find_host_picture c) as [s|] eqn:E;
      [|discriminate].
    destruct (truthy_opt (Some s)); [|discriminate].
    injection H as ->. apply INV. reflexivity.
  - intros HS. rewrite PE, HS. reflexivity.
Qed.

Lemma host_picture_only_from_response_sections_witness :
  HostParser.pictureUrl (HostParser.parse_host container_with_host) = Some (L "maria.jpg") /\
  L "maria.jpg" <> [].
Proof.
  split; [vm_compute; reflexivity|].
  apply (proj1 (host_picture_only_from_response_sections container_with_host)
           (L "maria.jpg")).
  vm_compute; reflexivity.
Defined.

(** ** The reviewer's location *)

(** A stable sort by length puts the first of the shortest strings in
    front. *)
Lemma sorted_by_len_head l t :
  hd_error (sorted_by_len l) = Some t ->
  exists pre post,
    l = pre ++ t :: post /\
    (forall u, In u pre -> length t < length u) /\
    (forall u, In u post -> length t <= length u).
Proof.
  revert t. induction l as [|x l IH]; intros t H; [discriminate|].
  cbn [sorted_by_len] in H.
  destruct (sorted_by_len l) as [|y s] eqn:S.
  - destruct l as [|z l'].
    + injection H as <-. exists [], []. repeat split; intros u [].
    + exfalso. cbn [sorted_by_len] in S.
      destruct (sorted_by_len l'); simpl in S; [discriminate|].
      destruct (Nat.leb _ _); discriminate.
  - destruct (IH y eq_refl) as (pre & post & E & Hpre & Hpost).
    cbn [insert_by_len] in H. destruct (Nat.leb (length x) (length y)) eqn:C.
    + injection H as <-. apply Nat.leb_le in C. exists [], l.
      split; [reflexivity|]. split; [intros u []|].
      intros u I. rewrite E in I. apply in_app_or in I.
      destruct I as [I|[<-|I]].
      * specialize (Hpre u I). lia.
      * exact C.
      * specialize (Hpost u I). lia.
    + injection H as <-. apply Nat.leb_gt in C. exists (x :: pre), post.
      split; [rewrite E; reflexivity|]. split; [|exact Hpost].
      intros u [<-|I]; [exact C|auto].
Qed.

Lemma sorted_by_len_nil l : sorted_by_len l = [] -> l = [].
Proof.
  destruct l as [|x l]; [reflexivity|]. cbn [sorted_by_len].
  destruct (sorted_by_len l); simpl; [discriminate|].
  destruct (Nat.leb _ _); discriminate.
Qed.

(** The loop of [_find_reviewer_location], read on the texts of the
    elements. *)
Lemma location_loop_spec elems :
  forall acc,
    match ReviewerParser.location_loop elems acc with
    | inl t =>
        exists pre post,
          List.map (get_text (L " ")) elems = pre ++ t :: post /\
          is_tenure t = true /\ forall u, In u pre -> is_tenure u = false
    | inr cands =>
        cands = acc ++ filter is_location_candidate (List.map (get_text (L " ")) elems) /\
        forall u, In u (List.map (get_text (L " ")) elems) -> is_tenure u = false
    end.
Proof.
  induction elems as [|e elems IH]; intros acc.
  - simpl. rewrite app_nil_r. split; [reflexivity|]. intros u [].
  - cbn [ReviewerParser.location_loop List.map filter].
    destruct (get_text (L " ") e) as [|x t] eqn:T.
    + specialize (IH acc).
      destruct (ReviewerParser.location_loop elems acc) as [r|cands].
      * destruct IH as (pre & post & E & Ht & Hpre).
        exists ([] :: pre), post. rewrite E. split; [reflexivity|]. split; [exact Ht|].
        intros u [<-|I]; [reflexivity|auto].
      * destruct IH as [E Hall]. split; [exact E|].
        intros u [<-|I]; [reflexivity|auto].
    + change (contains (L "years on airbnb") (lower (x :: t))
              || contains (L "year on airbnb") (lower (x :: t)))
        with (is_tenure (x :: t)).
      change (contains (L "from ") (lower (x :: t)) && Nat.ltb (length (x :: t)) 80)
        with (is_location_candidate (x :: t)).
      destruct (is_tenure (x :: t)) eqn:Ten.
      * exists [], (List.map (get_text (L " ")) elems).
        split; [reflexivity|]. split; [exact Ten|]. intros u [].
      * destruct (is_location_candidate (x :: t)) eqn:C.
        -- specialize (IH (@app str acc (@cons str (x :: t) (@nil str)))).
           destruct (ReviewerParser.location_loop
                       elems (@app str acc (@cons str (x :: t) (@nil str)))) as [r|cands].
           ++ destruct IH as (pre & post & E & Ht & Hpre).
              exists ((x :: t) :: pre), post. rewrite E.
              split; [reflexivity|]. split; [exact Ht|].
              intros u [<-|I]; [exact Ten|auto].
           ++ destruct IH as [E Hall]. split.
              ** rewrite E, <- app_assoc. reflexivity.
              ** intros u [<-|I]; [exact Ten|auto].
        -- specialize (IH acc).
           destruct (ReviewerParser.location_loop elems acc) as [r|cands].
           ++ destruct IH as (pre & post & E & Ht & Hpre).
              exists ((x :: t) :: pre), post. rewrite E.
              split; [reflexivity|]. split; [exact Ht|].
              intros u [<-|I]; [exact Ten|auto].
           ++ destruct IH as [E Hall]. split; [exact E|].
              intros u [<-|I]; [exact Ten|auto].
Qed.

Lemma tenure_split_unique (texts pre pre' post post' : list str) t t' :
  texts = pre ++ t :: post -> texts = pre' ++ t' :: post' ->
  is_tenure t = true -> is_tenure t' = true ->
  (forall u, In u pre -> is_tenure u = false) ->
  (forall u, In u pre' -> is_tenure u = false) ->
  t = t'.
Proof.
  intros -> E. revert pre' E. induction pre as [|a pre IH]; intros pre' E Ht Ht' Hp Hp'.
  - destruct pre' as [|b pre']; simpl in E.
    + congruence.
    + injection E as -> _. rewrite (Hp' b) in Ht by (left; reflexivity). discriminate.
  - destruct pre' as [|b pre']; simpl in E.
    + injection E as -> _. rewrite (Hp t') in Ht' by (left; reflexivity). discriminate.
    + injection E as -> E. apply (IH pre' E Ht Ht').
      * intros u I. apply Hp. right. exact I.
      * intros u I. apply Hp'. right. exact I.
Qed.

(** X14 ([_find_reviewer_location]): among the texts of the [span] and
    [div] elements of the container, in document order, the first one
    that mentions ["years on airbnb"] or ["year on airbnb"] is the
    location.  Without one, the location is the shortest text that holds
    ["from "] and is under 80 characters long, the first of them among
    equally short ones; with no such text there is none.  The location
    is never the empty string. *)
Theorem reviewer_location_tenure_then_shortest :
  forall container,
    let texts := List.map (get_text (L " ")) (find_all ["span"; "div"] [] container) in
    let loc := ReviewerParser.location (ReviewerParser.parse_reviewer container) in
    (forall pre t post,
        texts = pre ++ t :: post -> is_tenure t = true ->
        (forall u, In u pre -> is_tenure u = false) ->
        loc = Some t) /\
    ((forall u, In u texts -> is_tenure u = false) ->
     match loc with
     | Some t =>
         exists pre post,
           filter is_location_candidate texts = pre ++ t :: post /\
           (forall u, In u pre -> length t < length u) /\
           (forall u, In u post -> length t <= length u)
     | None => filter is_location_candidate texts = []
     end) /\
    loc <> Some [].
Proof.
  intros c texts loc.
  assert (LE : loc = match ReviewerParser._find_reviewer_location c with
                     | Some ((_ :: _) as t) => Some t
                     | _ => None
                     end).
  { unfold loc, ReviewerParser.parse_reviewer. cbn [ReviewerParser.location].
    destruct (ReviewerParser._find_reviewer_location c) as [[|x t]|]; reflexivity. }
  pose proof (location_loop_spec (find_all ["span"; "div"] [] c) []) as SP.
  fold texts in SP.
  unfold ReviewerParser._find_reviewer_location in LE.
  destruct (ReviewerParser.location_loop (find_all ["span"; "div"] [] c) [])
    as [r|cands].
  - destruct SP as (pre0 & post0 & E0 & Ht0 & Hpre0).
    assert (Lr : loc = Some r).
    { rewrite LE. destruct r; [discriminate Ht0|reflexivity]. }
    split; [|split].
    + intros pre t post E Ht Hpre. rewrite Lr. f_equal.
      exact (@tenure_split_unique texts pre0 pre post0 post r t E0 E Ht0 Ht Hpre0 Hpre).
    + intros Hall. rewrite (Hall r) in Ht0; [discriminate|].
      rewrite E0. apply in_or_app. right. left. reflexivity.
    + rewrite Lr. intros E. injection E as ->. discriminate Ht0.
  - destruct SP as [E Hall]. cbn [app] in E.
    assert (NE : forall t, In t cands -> t <> []).
    { intros t I ->. rewrite E in I. apply filter_In in I. destruct I as [_ I].
      discriminate I. }
    assert (LC : loc = match cands with [] => None | _ => hd_error (sorted_by_len cands) end).
    { rewrite LE. destruct cands as [|a cands']; [reflexivity|].
      destruct (hd_error (sorted_by_len (a :: cands'))) as [t|] eqn:H; [|reflexivity].
      destruct (sorted_by_len_head _ H) as (pre & post & Ec & _ & _).
      assert (I : In t (a :: cands')) by (rewrite Ec; apply in_or_app; right; left; reflexivity).
      specialize (NE t I). destruct t; [contradiction|reflexivity]. }
    split; [|split].
    + intros pre t post Et Ht Hpre. rewrite (Hall t) in Ht; [discriminate|].
      rewrite Et. apply in_or_app. right. left. reflexivity.
    + intros _. rewrite LC, <- E. destruct cands as [|a cands']; [reflexivity|].
      destruct (hd_error (sorted_by_len (a :: cands'))) as [t|] eqn:H.
      * exact (sorted_by_len_head _ H).
      * destruct (sorted_by_len (a :: cands')) eqn:S; [|discriminate].
        apply sorted_by_len_nil in S. exact S.
    + rewrite LC. destruct cands as [|a cands']; [discriminate|].
      intros H. destruct (sorted_by_len_head _ H) as (pre & post & Ec & _ & _).
      apply (NE []); [|reflexivity]. rewrite Ec. apply in_or_app. right. left. reflexivity.
Qed.

Lemma reviewer_location_tenure_then_shortest_witness :
  ReviewerParser.location (ReviewerParser.parse_reviewer container_with_host)
  = Some (L "From Lisbon, Portugal").
Proof.
  pose proof (proj1 (proj2 (reviewer_location_tenure_then_shortest container_with_host)))
    as H.
  cbv zeta in H.
  assert (T : forall u,
             In u (List.map (get_text (L " "))
                            (find_all ["span"; "div"] [] container_with_host)) ->
             is_tenure u = false).
  { intros u I. vm_compute in I. destruct I as [<-|[]]. vm_compute; reflexivity. }
  specialize (H T).
  destruct (ReviewerParser.location (ReviewerParser.parse_reviewer container_with_host))
    as [t|].
  - destruct H as (pre & post & E & _ & _).
    assert (F : filter is_location_candidate
                  (List.map (get_text (L " "))
                            (find_all ["span"; "div"] [] container_with_host))
                = [L "From Lisbon, Portugal"]) by (vm_compute; reflexivity).
    rewrite F in E. destruct pre as [|a pre].
    + injection E as <- _. reflexivity.
    + destruct pre; discriminate E.
  - discriminate H.
Defined.

(** ** Where the review photos come from *)

(** Induction on a document tree. *)
Fixpoint node_forall_ind (P : node -> Prop)
         (Hs : forall s, P (NavigableString s))
         (Ht : forall nm a cs, Forall P cs -> P (Tag nm a cs))
         (n : node) {struct n} : P n :=
  match n with
  | NavigableString s => Hs s
  | Tag nm a cs =>
      Ht nm a cs
         ((fix go (l : list node) : Forall P l :=
             match l with
             | [] => Forall_nil P
             | x :: l' => Forall_cons x (node_forall_ind Hs Ht x) (go l')
             end) cs)
  end.

(** What lies below a descendant lies below the node itself. *)
Lemma descendants_trans n :
  forall d x, In d (descendants n) -> In x (descendants d) -> In x (descendants n).
Proof.
  induction n as [s|nm a cs IH] using node_forall_ind; intros d x Hd Hx.
  - destruct Hd.
  - cbn [descendants] in *. apply in_flat_map in Hd. destruct Hd as (c & Ic & Hd).
    apply in_flat_map. exists c. split; [exact Ic|]. right.
    destruct Hd as [<-|Hd]; [exact Hx|].
    rewrite Forall_forall in IH. exact (IH c Ic d x Hd Hx).
Qed.

Lemma find_all_inv names wants n x :
  In x (find_all names wants n) ->
  In x (descendants n) /\ tag_matches names wants x = true.
Proof. unfold find_all. intros H. apply filter_In in H. exact H. Qed.

Lemma tag_matches_one_name nm wants x :
  tag_matches [nm] wants x = true -> name x = L nm.
Proof.
  unfold tag_matches. intros H. apply andb_prop in H. destruct H as [H _].
  apply andb_prop in H. destruct H as [_ H]. cbn [existsb] in H.
  rewrite orb_false_r in H. apply eqb_true_iff in H. exact H.
Qed.

Lemma or_else_cases x y u :
  or_else x y = Some u ->
  (x = Some u /\ u <> []) \/ (truthy_opt x = false /\ y = Some u).
Proof.
  destruct x as [[|a s]|]; simpl; intros H; auto.
  injection H as <-. left. split; [reflexivity|discriminate].
Qed.

(** X15 ([_extract_review_photos], provenance): every review photo is a
    non-empty attribute value of an [<img>] element below the container.
    It is the [data-original-uri] of an image matched by a photo
    marker; or the [src] of such an image whose [data-original-uri] is
    missing or empty; or, only when the markers gave no URL at all, the
    [src] of an image below a [div] whose classes mention ["photo"] or
    ["image"]. *)
Theorem review_photos_come_from_images :
  forall container u,
    In u (ReviewParser._extract_review_photos container) ->
    u <> [] /\
    exists img,
      image_of container img /\
      ((exists sel, In sel ReviewParser.photo_selectors /\ In img (select sel container) /\
                    get_str img "data-original-uri" = Some u) \/
       (exists sel, In sel ReviewParser.photo_selectors /\ In img (select sel container) /\
                    truthy_opt (get_str img "data-original-uri") = false /\
                    get_str img "src" = Some u) \/
       (fold_left ReviewParser.add_photo (ReviewParser.marked_photo_urls container) [] = [] /\
        exists div, In div (descendants container) /\ name div = L "div" /\
                    is_photo_div div = true /\ image_of div img /\
                    get_str img "src" = Some u)).
Proof.
  intros c u H. rewrite extract_review_photos_eq in H.
  destruct (fold_add_photo_collected (photo_candidates c)) as (_ & M & _).
  apply M in H. destruct H as [Hu H]. split; [exact Hu|].
  unfold photo_candidates in H.
  destruct (fold_left ReviewParser.add_photo (ReviewParser.marked_photo_urls c) [])
    as [|p ps] eqn:E.
  - unfold ReviewParser.fallback_photo_urls in H.
    apply in_flat_map in H. destruct H as (div & Id & H).
    change (existsb _ ["photo"; "image"]) with (is_photo_div div) in H.
    destruct (is_photo_div div) eqn:PD; [|destruct H].
    apply in_map_iff in H. destruct H as (img & Hs & Ii).
    apply find_all_inv in Id. destruct Id as [Dd Td].
    apply find_all_inv in Ii. destruct Ii as [Di Ti].
    apply tag_matches_one_name in Td. apply tag_matches_one_name in Ti.
    exists img. split.
    + split; [exact (descendants_trans c div img Dd Di)|exact Ti].
    + right. right. split; [reflexivity|].
      exists div. repeat split; assumption.
  - unfold ReviewParser.marked_photo_urls in H.
    apply in_flat_map in H. destruct H as (sel & Is & H).
    apply in_map_iff in H. destruct H as (img & Hs & Ii).
    assert (IM : image_of c img).
    { unfold select in Ii. apply filter_In in Ii. destruct Ii as [Di Ci].
      split; [exact Di|].
      unfold css_matches in Ci.
      apply andb_prop in Ci. destruct Ci as [Ci _].
      apply andb_prop in Ci. destruct Ci as [Ci _].
      apply andb_prop in Ci. destruct Ci as [_ Ci].
      destruct Is as [<-|[<-|[]]]; cbn [sel_tag] in Ci;
        apply eqb_true_iff in Ci; exact Ci. }
    exists img. split; [exact IM|].
    apply or_else_cases in Hs. destruct Hs as [[Hd _]|[Hd Hs]].
    + left. exists sel. auto.
    + right. left. exists sel. auto.
Qed.

Lemma review_photos_come_from_images_witness :
  In (L "p1.jpg") (ReviewParser._extract_review_photos container_repeated_photos) /\
  L "p1.jpg" <> [].
Proof.
  assert (I : In (L "p1.jpg")
                 (ReviewParser._extract_review_photos container_repeated_photos))
    by (vm_compute; left; reflexivity).
  split; [exact I|].
  exact (proj1 (review_photos_come_from_images container_repeated_photos (L "p1.jpg") I)).
Defined.

(** ** The XML export *)

Section XmlTags.

Import DataFormatter.

(** Induction on a nested value. *)
Fixpoint value_forall_ind (P : value -> Prop)
         (Hn : P VNone)
         (Hs : forall t, P (VScalar t))
         (Hl : forall items, Forall P items -> P (VList items))
         (Hd : forall items, Forall (fun kv => P (snd kv)) items -> P (VDict items))
         (v : value) {struct v} : P v :=
  match v with
  | VNone => Hn
  | VScalar t => Hs t
  | VList items =>
      Hl items
         ((fix go (l : list value) : Forall P l :=
             match l with
             | [] => Forall_nil P
             | x :: l' => Forall_cons x (value_forall_ind Hn Hs Hl Hd x) (go l')
             end) items)
  | VDict items =>
      Hd items
         ((fix go (l : list (str * value)) : Forall (fun kv => P (snd kv)) l :=
             match l with
             | [] => Forall_nil _
             | kv :: l' =>
                 Forall_cons kv (value_forall_ind Hn Hs Hl Hd (snd kv)) (go l')
             end) items)
  end.

Lemma tags_append parent child t :
  In t (tags (append parent child)) <-> In t (tags parent) \/ In t (tags child).
Proof.
  destruct parent as [tg tx cs]. unfold append. cbn [tags tag text children].
  rewrite flat_map_app. cbn [flat_map]. rewrite app_nil_r.
  cbn [In]. rewrite in_app_iff. tauto.
Qed.

Lemma replace_removes old new s :
  old <> new -> ~ In old (replace old new s).
Proof.
  intros Hne I. unfold replace in I. apply in_map_iff in I.
  destruct I as (c & E & _). destruct (N.eqb_spec c old); congruence.
Qed.

(** A loop that appends children whose new tags are all good only adds
    good tags. *)
Lemma tags_fold_append {A} (good : str -> Prop) (f : A -> element) items :
  Forall (fun x => forall t, In t (tags (f x)) -> good t) items ->
  forall parent t,
    In t (tags (fold_left (fun p x => append p (f x)) items parent)) ->
    In t (tags parent) \/ good t.
Proof.
  induction 1 as [|x items Hx _ IH]; intros parent t I; cbn [fold_left] in I.
  - left. exact I.
  - apply IH in I. destruct I as [I|I]; [|right; exact I].
    apply tags_append in I. destruct I as [I|I]; [left; exact I|right; auto].
Qed.

Lemma populate_xml_tags data :
  forall parent prefix t,
    In t (tags (_populate_xml parent data prefix)) ->
    In t (tags parent) \/ ~ In 46%N t.
Proof.
  induction data as [|s|items IH|items IH] using value_forall_ind;
    intros parent prefix t I.
  - left. destruct parent. exact I.
  - left. destruct parent. exact I.
  - cbn [_populate_xml] in I.
    apply (tags_fold_append (fun t => ~ In 46%N t)) in I; [exact I|].
    eapply Forall_impl; [|exact IH]. intros v Hv u Iu.
    apply Hv in Iu. destruct Iu as [[<-|[]]|Iu]; [|exact Iu].
    vm_compute. intuition discriminate.
  - cbn [_populate_xml] in I.
    apply (tags_fold_append (fun t => ~ In 46%N t)
             (fun kv => _populate_xml (Element (replace 46 95 (prefix ++ fst kv)) None [])
                                      (snd kv) [])) in I; [exact I|].
    eapply Forall_impl; [|exact IH]. intros kv Hv u Iu.
    apply Hv in Iu. destruct Iu as [[<-|[]]|Iu]; [|exact Iu].
    apply replace_removes. discriminate.
Qed.

Lemma fold_append_tag {A} (f : A -> element) items :
  forall parent,
    tag (fold_left (fun p x => append p (f x)) items parent) = tag parent.
Proof.
  induction items as [|x items IH]; intros parent; [reflexivity|].
  cbn [fold_left]. rewrite IH. reflexivity.
Qed.

Lemma fold_append_children {A} (f : A -> element) items :
  forall parent,
    children (fold_left (fun p x => append p (f x)) items parent)
    = children parent ++ List.map f items.
Proof.
  induction items as [|x items IH]; intros parent; cbn [fold_left List.map].
  - rewrite app_nil_r. reflexivity.
  - rewrite IH. unfold append. cbn [children]. rewrite <- app_assoc. reflexivity.
Qed.

(** Populating an element leaves its tag alone. *)
Lemma populate_xml_tag data parent prefix :
  tag (_populate_xml parent data prefix) = tag parent.
Proof.
  destruct data; cbn [_populate_xml]; try reflexivity.
  - apply (fold_append_tag
             (fun item => _populate_xml (Element (L "item") None []) item [])).
  - apply (fold_append_tag
             (fun kv => _populate_xml (Element (replace 46 95 (prefix ++ fst kv)) None [])
                                      (snd kv) [])).
Qed.

End XmlTags.

(** X16 ([_populate_xml], [_export_xml], tag names): whatever the keys
    of the records are, no tag of the exported tree holds a [.]: a key
    becomes a tag with every [.] replaced by [_], a list item becomes
    [item].  The root is [reviews], and it gets one [review] child per
    record.  Populating an element never adds a tag with a [.] to it. *)
Theorem xml_tags_hold_no_dot :
  forall reviews,
    (forall t, In t (tags (DataFormatter._export_xml reviews)) -> ~ In 46%N t) /\
    DataFormatter.tag (DataFormatter._export_xml reviews) = L "reviews" /\
    List.map DataFormatter.tag (DataFormatter.children (DataFormatter._export_xml reviews))
      = repeat (L "review") (length reviews) /\
    (forall parent data prefix t,
        In t (tags (DataFormatter._populate_xml parent data prefix)) ->
        In t (tags parent) \/ ~ In 46%N t).
Proof.
  intros reviews. split; [|split; [|split]].
  - intros t I. unfold DataFormatter._export_xml in I.
    apply (tags_fold_append (fun t => ~ In 46%N t)) in I.
    + destruct I as [[<-|[]]|I]; [|exact I]. vm_compute. intuition discriminate.
    + apply Forall_forall. intros v _ u Iu. apply populate_xml_tags in Iu.
      destruct Iu as [[<-|[]]|Iu]; [|exact Iu]. vm_compute. intuition discriminate.
  - unfold DataFormatter._export_xml.
    apply (fold_append_tag
             (fun review =>
                DataFormatter._populate_xml
                  (DataFormatter.Element (L "review") None []) review [])).
  - unfold DataFormatter._export_xml.
    rewrite (fold_append_children
               (fun review =>
                  DataFormatter._populate_xml
                    (DataFormatter.Element (L "review") None []) review [])).
    cbn [DataFormatter.children app]. rewrite map_map.
    induction reviews as [|r reviews IH]; [reflexivity|].
    cbn [List.map length repeat]. rewrite populate_xml_tag, IH. reflexivity.
  - intros parent data prefix t. apply populate_xml_tags.
Qed.

Lemma xml_tags_hold_no_dot_witness :
  ~ In 46%N (L "reviewer_first_name") /\
  In (L "reviewer_first_name")
     (tags (DataFormatter._export_xml
              [ DataFormatter.VDict
                  [ (L "reviewer.first.name", DataFormatter.VScalar (L "Ann"));
                    (L "photos", DataFormatter.VList [DataFormatter.VNone]) ] ])).
Proof.
  assert (I : In (L "reviewer_first_name")
                 (tags (DataFormatter._export_xml
                          [ DataFormatter.VDict
                              [ (L "reviewer.first.name", DataFormatter.VScalar (L "Ann"));
                                (L "photos", DataFormatter.VList [DataFormatter.VNone]) ] ])))
    by (vm_compute; right; right; left; reflexivity).
  split; [|exact I].
  exact (proj1 (xml_tags_hold_no_dot _) _ I).
Defined.

(** ** One room *)

Section ScrapeRoomProps.

Context {cap : Capabilities}.
Variable fetch : str -> result str.
Variable BeautifulSoup : str -> node.



End ScrapeRoomProps.


(** ** Where the output goes *)

Section DetermineOutputProps.

Variable data_path : str -> str.




End DetermineOutputProps.

(** ** The properties at work on the samples *)

Lemma assembly_fails_only_through_the_environment_witness :
  @ReviewParser._parse_single_review sample_capabilities review_b room
  = inl (OtherException "RuntimeError").
Proof.
  apply (proj2 (@assembly_fails_only_through_the_environment
                  sample_capabilities review_b room) (L "???")).
  - vm_compute; reflexivity.
  - vm_compute; reflexivity.
  - discriminate.
  - discriminate.
  - discriminate.
Defined.

Lemma parse_reviews_bounds_witness :
  exists reviews log,
    @ReviewParser.parse_reviews sample_capabilities page_bacde room (Some 2%Z)
    = (inr reviews, log) /\
    (Z.of_nat (length reviews) <= 2)%Z.
Proof.
  destruct (@parse_reviews_bounds sample_capabilities page_bacde room (Some 2%Z))
    as (reviews & log & E & _ & B & _).
  exists reviews, log. split; [exact E|]. exact (B 2%Z eq_refl).
Defined.

Lemma date_text_sources_witness :
  ReviewParser.find_date_text review_a = Some (L "2021-03-04T05:06:07+02:00").
Proof.
  apply (proj1 (proj2 (date_text_sources review_a))
           (el "time" [("datetime", "2021-03-04T05:06:07+02:00")] [])).
  - vm_compute; reflexivity.
  - vm_compute; reflexivity.
  - discriminate.
Defined.



Lemma host_link_section_then_phrase_witness :
  host_section_link container_with_host = Some maria_link /\
  HostParser._find_host_link container_with_host = Some maria_link.
Proof.
  assert (E : host_section_link container_with_host = Some maria_link)
    by (vm_compute; reflexivity).
  split; [exact E|].
  exact (proj1 (proj1 (host_link_section_then_phrase container_with_host) maria_link E)).
Defined.


(** ** The settings and the input *)

Section ConfigProps.

Import Main Config.

Lemma assoc_app_l {A} k (d e : list (str * A)) v :
  assoc k d = Some v -> assoc k (d ++ e) = Some v.
Proof.
  induction d as [|[k' v'] d IH]; simpl; [discriminate|].
  destruct (PyStr.eqb k' k); auto.
Qed.

Lemma assoc_app_r {A} k (d e : list (str * A)) :
  assoc k d = None -> assoc k (d ++ e) = assoc k e.
Proof.
  induction d as [|[k' v'] d IH]; simpl; [reflexivity|].
  destruct (PyStr.eqb k' k); [discriminate|auto].
Qed.

Lemma setdefault_keeps d key default k v :
  assoc k d = Some v -> assoc k (setdefault d key default) = Some v.
Proof.
  intros H. unfold setdefault. destruct (assoc (L key) d); [exact H|].
  apply assoc_app_l. exact H.
Qed.

Lemma setdefault_sets d key default :
  exists v, assoc (L key) (setdefault d key default) = Some v /\
            (assoc (L key) d = None -> v = default).
Proof.
  unfold setdefault. destruct (assoc (L key) d) as [v|] eqn:E.
  - exists v. split; [exact E|discriminate].
  - exists default. split; [|reflexivity].
    rewrite assoc_app_r by exact E. simpl.
    destruct (PyStr.eqb (L key) (L key)) eqn:K; [reflexivity|].
    exfalso. assert (K' : PyStr.eqb (L key) (L key) = true)
      by (apply eqb_true_iff; reflexivity). congruence.
Qed.

Lemma setdefault_other d key default k :
  k <> L key -> assoc k (setdefault d key default) = assoc k d.
Proof.
  intros Hk. unfold setdefault. destruct (assoc (L key) d); [reflexivity|].
  destruct (assoc k d) as [v|] eqn:E.
  - apply assoc_app_l. exact E.
  - rewrite assoc_app_r by exact E. simpl.
    destruct (PyStr.eqb (L key) k) eqn:K; [|reflexivity].
    apply eqb_true_iff in K. congruence.
Qed.

Lemma fold_setdefault_keeps defs :
  forall d k v,
    assoc k d = Some v ->
    assoc k (fold_left (fun d kv => setdefault d (fst kv) (snd kv)) defs d) = Some v.
Proof.
  induction defs as [|[key default] defs IH]; intros d k v H; [exact H|].
  cbn [fold_left fst snd]. apply IH. apply setdefault_keeps. exact H.
Qed.

Lemma fold_setdefault_other defs :
  forall d k,
    (forall kv, In kv defs -> k <> L (fst kv)) ->
    assoc k (fold_left (fun d kv => setdefault d (fst kv) (snd kv)) defs d) = assoc k d.
Proof.
  induction defs as [|[key default] defs IH]; intros d k H; [reflexivity|].
  cbn [fold_left fst snd]. rewrite IH by (intros kv I; apply H; right; exact I).
  apply setdefault_other. apply (H (key, default)). left. reflexivity.
Qed.

Lemma fold_setdefault_sets defs :
  forall d key default,
    In (key, default) defs ->
    exists v,
      assoc (L key) (fold_left (fun d kv => setdefault d (fst kv) (snd kv)) defs d)
      = Some v.
Proof.
  induction defs as [|[key' default'] defs IH]; intros d key default I; [destruct I|].
  cbn [fold_left fst snd]. destruct I as [E|I].
  - injection E as -> ->.
    destruct (setdefault_sets d key default) as (v & Hv & _).
    exists v. apply fold_setdefault_keeps. exact Hv.
  - exact (IH _ key default I).
Qed.

Lemma fold_setdefault_default defs :
  forall d key default,
    NoDup (List.map (fun kv => L (fst kv)) defs) ->
    In (key, default) defs ->
    assoc (L key) d = None ->
    assoc (L key) (fold_left (fun d kv => setdefault d (fst kv) (snd kv)) defs d)
    = Some default.
Proof.
  induction defs as [|[key' default'] defs IH]; intros d key default ND I Hn;
    [destruct I|].
  cbn [List.map fst] in ND. inversion ND as [|? ? Hnot ND']; subst.
  cbn [fold_left fst snd]. destruct I as [E|I].
  - injection E as -> ->. apply fold_setdefault_keeps.
    destruct (setdefault_sets d key default) as (v & Hv & Hd).
    rewrite Hv, (Hd Hn). reflexivity.
  - apply IH; [exact ND'|exact I|].
    rewrite setdefault_other; [exact Hn|].
    intros E. apply Hnot. rewrite <- E.
    apply (in_map (fun kv => L (fst kv)) defs (key, default)). exact I.
Qed.

Lemma defaults_keys_distinct :
  NoDup (List.map (fun kv => L (fst kv)) defaults).
Proof.
  vm_compute. repeat (constructor; [simpl; intuition discriminate|]). constructor.
Qed.

(** X19 ([load_settings]): the settings that are returned hold every
    one of the seven defaulted keys; a key of the file keeps the value of
    the file, also when that value is [null] or otherwise empty; other
    keys of the file are kept as they are.  Without a file the settings
    are the defaults.  A file that does not hold a JSON object raises
    [AttributeError]. *)
Theorem load_settings_fills_missing_keys_only :
  forall is_file loaded,
    (is_file = false ->
     load_settings is_file loaded
     = inr (JDict (List.map (fun kv => (L (fst kv), snd kv)) defaults))) /\
    (forall d, is_file = true -> loaded = inr (JDict d) ->
       exists d',
         load_settings is_file loaded = inr (JDict d') /\
         (forall k v, assoc k d = Some v -> assoc k d' = Some v) /\
         (forall key default, In (key, default) defaults ->
            exists v, assoc (L key) d' = Some v /\
                      (assoc (L key) d = None -> v = default)) /\
         (forall k, assoc k d = None ->
                    (forall kv, In kv defaults -> k <> L (fst kv)) ->
                    assoc k d' = None)) /\
    (forall data, is_file = true -> loaded = inr data ->
                  (forall d, data <> JDict d) ->
                  load_settings is_file loaded = inl AttributeError) /\
    (forall exc, is_file = true -> loaded = inl exc ->
                 load_settings is_file loaded = inl exc).
Proof.
  intros is_file loaded. split; [|split; [|split]].
  - intros ->. reflexivity.
  - intros d -> ->. eexists. split; [reflexivity|]. split; [|split].
    + intros k v H. apply fold_setdefault_keeps. exact H.
    + intros key default I.
      destruct (fold_setdefault_sets defaults d key default I) as (v & Hv).
      exists v. split; [exact Hv|]. intros Hn.
      rewrite (fold_setdefault_default defaults d key default
                 defaults_keys_distinct I Hn) in Hv.
      congruence.
    + intros k Hn Hk. rewrite fold_setdefault_other by exact Hk. exact Hn.
  - intros data -> -> Hd. cbn [load_settings negb bind].
    destruct data; try reflexivity. exfalso. exact (Hd items eq_refl).
  - intros exc -> ->. reflexivity.
Qed.

Lemma load_settings_fills_missing_keys_only_witness :
  exists d',
    load_settings true (inr (JDict [(L "max_reviews_per_room", JNull)])) = inr (JDict d') /\
    assoc (L "max_reviews_per_room") d' = Some JNull.
Proof.
  destruct (proj1 (proj2 (load_settings_fills_missing_keys_only
                            true (inr (JDict [(L "max_reviews_per_room", JNull)]))))
              [(L "max_reviews_per_room", JNull)] eq_refl eq_refl)
    as (d' & E & K & _).
  exists d'. split; [exact E|]. apply K. vm_compute; reflexivity.
Defined.

(** X20 ([load_input]): the input is returned, unchanged, exactly when
    the file holds a JSON object whose [roomUrls] is an array; the array
    may be empty, and its items are not looked at.  An object without
    [roomUrls], or with a [roomUrls] that is no array, raises
    [ValueError]; a missing file raises [FileNotFoundError]. *)
Theorem load_input_accepts_objects_with_a_roomUrls_array :
  forall data,
    (forall data',
        load_input true (inr data) = inr data' <->
        data' = data /\
        exists d items, data = JDict d /\ assoc (L "roomUrls") d = Some (JList items)) /\
    (forall d, data = JDict d ->
               (forall items, assoc (L "roomUrls") d <> Some (JList items)) ->
               load_input true (inr data) = inl ValueError) /\
    load_input false (inr data) = inl FileNotFoundError /\
    load_input true (inr (JDict [(L "roomUrls", JList [])]))
    = inr (JDict [(L "roomUrls", JList [])]).
Proof.
  intros data. split; [|split; [|split]].
  - intros data'. split.
    + intros H. cbn [load_input negb bind] in H.
      destruct data as [| | | | s|items|d]; cbn [has_roomUrls] in H; try discriminate H.
      * destruct (contains (L "roomUrls") s); discriminate H.
      * destruct (existsb _ items); discriminate H.
      * unfold get_roomUrls, dict_get in H.
        destruct (assoc (L "roomUrls") d) as [v|] eqn:E; [|discriminate H].
        cbn [negb] in H. destruct v; try discriminate H.
        injection H as <-. split; [reflexivity|]. exists d, items. auto.
    + intros (-> & d & items & -> & E). cbn [load_input negb bind has_roomUrls].
      unfold get_roomUrls, dict_get. rewrite E. reflexivity.
  - intros d -> Hn. cbn [load_input negb bind has_roomUrls].
    unfold get_roomUrls, dict_get.
    destruct (assoc (L "roomUrls") d) as [v|] eqn:E; [|reflexivity].
    cbn [negb]. destruct v; try reflexivity. exfalso. exact (Hn items eq_refl).
  - reflexivity.
  - reflexivity.
Qed.

Lemma load_input_accepts_objects_with_a_roomUrls_array_witness :
  load_input true (inr (JDict sample_input_cfg)) = inr (JDict sample_input_cfg).
Proof.
  apply (proj1 (load_input_accepts_objects_with_a_roomUrls_array (JDict sample_input_cfg))).
  split; [reflexivity|].
  exists sample_input_cfg, [JStr room]. split; [reflexivity|vm_compute; reflexivity].
Defined.

End ConfigProps.

(** ** Which [span] gives the date *)

Lemma startswith_before_sep n c b :
  ~ In c n ->
  forall a, startswith n (a ++ c :: b) = true -> startswith n a = true.
Proof.
  intros Hc. induction n as [|x n IH]; intros a H; [reflexivity|].
  destruct a as [|y a]; cbn [app startswith] in *.
  - apply andb_prop in H. destruct H as [H _]. apply N.eqb_eq in H.
    exfalso. apply Hc. left. exact H.
  - apply andb_prop in H. destruct H as [H1 H2]. rewrite H1. cbn [andb].
    apply IH; [|exact H2]. intros I. apply Hc. right. exact I.
Qed.

(** A needle without the separator cannot straddle it. *)
Lemma contains_app_sep_inv n c a b :
  n <> [] -> ~ In c n ->
  contains n (a ++ c :: b) = true -> contains n a = true \/ contains n b = true.
Proof.
  intros Hn Hc. induction a as [|y a IH]; intros H.
  - cbn [app] in H. rewrite contains_unfold in H. apply orb_prop in H.
    destruct H as [H|H]; [|right; exact H].
    apply (startswith_before_sep n c b Hc []) in H.
    destruct n; [contradiction|discriminate H].
  - cbn [app] in H. rewrite contains_unfold in H. apply orb_prop in H.
    destruct H as [H|H].
    + left. rewrite contains_unfold.
      rewrite (startswith_before_sep n c b Hc (y :: a) H). reflexivity.
    + destruct (IH H) as [H'|H']; [left|right; exact H'].
      rewrite contains_unfold, H'. apply orb_true_r.
Qed.

Lemma contains_join_inv n c parts :
  n <> [] -> ~ In c n ->
  contains n (join [c] parts) = true ->
  exists p, In p parts /\ contains n p = true.
Proof.
  intros Hn Hc. induction parts as [|p parts IH]; intros H.
  - destruct n; [contradiction|discriminate H].
  - destruct parts as [|q parts'].
    + exists p. split; [left; reflexivity|exact H].
    + change (join [c] (p :: q :: parts')) with (p ++ c :: join [c] (q :: parts')) in H.
      apply contains_app_sep_inv in H; [|exact Hn|exact Hc].
      destruct H as [H|H].
      * exists p. split; [left; reflexivity|exact H].
      * destruct (IH H) as (p' & I & H'). exists p'. split; [right; exact I|exact H'].
Qed.

Lemma find_at {A} (p : A -> bool) pre x post :
  (forall y, In y pre -> p y = false) -> p x = true ->
  List.find p (pre ++ x :: post) = Some x.
Proof.
  intros Hpre Hx. induction pre as [|a pre IH]; simpl.
  - rewrite Hx. reflexivity.
  - rewrite (Hpre a) by (left; reflexivity). apply IH.
    intros y I. apply Hpre. right. exact I.
Qed.

Lemma string_attribute_is_single_valued n attr value :
  In (attr, AStr value) (attrs n) -> multi_valued (name n) attr = false.
Proof.
  unfold attrs. intros I. apply in_map_iff in I. destruct I as ([k raw] & E & _).
  unfold attr_view in E. cbn [fst snd] in E.
  destruct (multi_valued (name n) k) eqn:M; [discriminate|].
  injection E as <- _. exact M.
Qed.

(** X21 ([_extract_dates], the [span] fallback): a [span] counts as a
    date label exactly when one of its string-valued attributes holds
    ["date"], in any letter case; the values are not mixed up by the
    joining.  The [class] attribute, which is a list, never counts.
    Without a [time] element the date text is the text of the first
    such [span], and nothing when that text is empty: later spans are
    not tried. *)
Theorem date_span_needs_a_string_attribute :
  forall container,
    (forall span,
        (mentions_date span = true <->
         exists attr value, In (attr, AStr value) (attrs span) /\
                            contains (L "date") (lower value) = true) /\
        (forall attr value, In (attr, AStr value) (attrs span) -> attr <> L "class")) /\
    (forall pre span post,
        find ["time"] [] container = None ->
        find_all ["span"] [] container = pre ++ span :: post ->
        (forall s, In s pre -> mentions_date s = false) ->
        mentions_date span = true ->
        ReviewParser.find_date_text container =
        match get_text [] span with
        | [] => None
        | t => Some t
        end).
Proof.
  intros c. split.
  - intros span. split; [split|].
    + intros H. unfold mentions_date in H. rewrite lower_join in H.
      change (lower (L " ")) with [32%N] in H.
      apply contains_join_inv in H; [|discriminate|vm_compute; intuition discriminate].
      destruct H as (p & I & H). apply in_map_iff in I.
      destruct I as (v & <- & I). apply in_flat_map in I.
      destruct I as ([attr av] & Ia & Iv). cbn [snd] in Iv.
      destruct av as [s|l]; [|destruct Iv]. destruct Iv as [->|[]].
      exists attr, v. auto.
    + intros (attr & value & I & H). unfold mentions_date. rewrite lower_join.
      apply (contains_join _ _ _ (lower value)); [|exact H].
      apply in_map. apply in_flat_map. exists (attr, AStr value).
      split; [exact I|left; reflexivity].
    + intros attr value I E. apply string_attribute_is_single_valued in I.
      rewrite E in I. unfold multi_valued in I.
      assert (K : PyStr.eqb (L "class") (L "class") = true)
        by (apply eqb_true_iff; reflexivity).
      rewrite K in I. discriminate I.
  - intros pre span post HT HS Hpre Hspan.
    assert (E : ReviewParser.find_date_text c =
                let date_text :=
                  match find ["time"] [] c with
                  | Some te => or_else (get_str te "datetime") (Some (get_text [] te))
                  | None => None
                  end in
                let date_text :=
                  if negb (truthy_opt date_text) then
                    match List.find mentions_date (find_all ["span"] [] c) with
                    | Some span => Some (get_text [] span)
                    | None => date_text
                    end
                  else date_text in
                if negb (truthy_opt date_text) then None else date_text) by reflexivity.
    rewrite E, HT, HS. cbv zeta. cbn [truthy_opt negb].
    rewrite (find_at mentions_date pre span post Hpre Hspan).
    destruct (get_text [] span); reflexivity.
Qed.

Lemma date_span_needs_a_string_attribute_witness :
  ReviewParser.find_date_text container_date_in_testid = Some (L "May 2021") /\
  ReviewParser.find_date_text container_date_in_class = None.
Proof.
  split.
  - apply (proj2 (date_span_needs_a_string_attribute container_date_in_testid)
             [] (el "span" [("data-testid", "Review-Date")] [txt "May 2021"]) []).
    + vm_compute; reflexivity.
    + vm_compute; reflexivity.
    + intros s [].
    + vm_compute; reflexivity.
  - vm_compute; reflexivity.
Defined.
